(** * utilities/utils.py: the subprocess harness and the retry wrapper

    A shallow embedding of [_wrapped_func], [run_in_subprocess] and
    [run_with_retry].  Python values are a small inductive universe, the
    processes and the result queue, a pipe of pickles between them, are
    explicit state, and raising, blocking and dying are the results of a
    state-and-exception monad.  The same
    monad carries [assert_registered], [validate_hf_repo_id],
    [get_top_valis] and [list_top_miners]. *)

From Stdlib Require Import ZArith String Ascii List Bool Lia.
From stdpp Require Import base decidable option list strings pretty gmap.
From Stdlib Require Import Sorted Permutation.

Local Open Scope Z_scope.
Local Open Scope string_scope.
Local Open Scope list_scope.

Set Warnings "-register-all".

(** ** Python values *)

Module Py.

(** The exception classes the harness meets, with single inheritance.
    [UserExc m n b] is [class n(b)] declared in module [m], a class that
    keeps the [__str__] of its base. *)
Inductive ExcClass : Type :=
| BaseException
| Exception
| SystemExit
| KeyboardInterrupt
| GeneratorExit
| LookupError
| IndexError
| OSError
| TimeoutError
| TypeError
| ValueError
| UserExc (module name : string) (base : ExcClass).

(** Values that travel through a [multiprocessing] queue.  An exception
    instance is its class and its [args]; [PyObj m n text] is an instance
    of any other class [n] of module [m], with the text of its [repr]. *)
Inductive PyVal : Type :=
| PyNone
| PyBool (b : bool)
| PyInt (z : Z)
| PyStr (s : string)
| PyTuple (xs : list PyVal)
| PyExc (cls : ExcClass) (args : list PyVal)
| PyObj (module name text : string).

(** [type(e).__name__] *)
Definition class_name (c : ExcClass) : string :=
  match c with
  | BaseException => "BaseException"
  | Exception => "Exception"
  | SystemExit => "SystemExit"
  | KeyboardInterrupt => "KeyboardInterrupt"
  | GeneratorExit => "GeneratorExit"
  | LookupError => "LookupError"
  | IndexError => "IndexError"
  | OSError => "OSError"
  | TimeoutError => "TimeoutError"
  | TypeError => "TypeError"
  | ValueError => "ValueError"
  | UserExc _ n _ => n
  end.

(** [issubclass(c, Exception)]: walk up the bases. *)
Fixpoint derives_Exception (c : ExcClass) : bool :=
  match c with
  | BaseException | SystemExit | KeyboardInterrupt | GeneratorExit => false
  | Exception | LookupError | IndexError | OSError | TimeoutError | TypeError
  | ValueError => true
  | UserExc _ _ b => derives_Exception b
  end.

(** [issubclass(c, OSError)] *)
Fixpoint derives_OSError (c : ExcClass) : bool :=
  match c with
  | OSError | TimeoutError => true
  | UserExc _ _ b => derives_OSError b
  | _ => false
  end.

(** [isinstance(v, tuple)] *)
Definition is_tuple (v : PyVal) : bool :=
  match v with PyTuple _ => true | _ => false end.

(** [isinstance(v, BaseException)] *)
Definition is_BaseException (v : PyVal) : bool :=
  match v with PyExc _ _ => true | _ => false end.

(** [isinstance(v, Exception)] *)
Definition is_Exception (v : PyVal) : bool :=
  match v with PyExc c _ => derives_Exception c | _ => false end.

(** [queue.Empty], declared in the C module [_queue]. *)
Definition Empty : ExcClass := UserExc "_queue" "Empty" Exception.

(** *** [repr] and [str] *)

Definition LF : string := String (ascii_of_nat 10) "".

Definition hex_digit (n : nat) : ascii :=
  match n with
  | 0 => "0" | 1 => "1" | 2 => "2" | 3 => "3" | 4 => "4" | 5 => "5" | 6 => "6"
  | 7 => "7" | 8 => "8" | 9 => "9" | 10 => "a" | 11 => "b" | 12 => "c"
  | 13 => "d" | 14 => "e" | _ => "f"
  end%char%nat.

Fixpoint contains_char (c : ascii) (s : string) : bool :=
  match s with
  | EmptyString => false
  | String d r => if Ascii.eqb c d then true else contains_char c r
  end.

(** [repr] of a [str] picks double quotes only when the text has a single
    quote and no double quote. *)
Definition quote_of (s : string) : ascii :=
  let dq := ascii_of_nat 34 in
  if contains_char "'" s && negb (contains_char dq s) then dq else "'"%char.

Definition escape_char (q c : ascii) : string :=
  let n := nat_of_ascii c in
  if Ascii.eqb c q || Ascii.eqb c "\" then String "\" (String c "")
  else if Nat.eqb n 9 then "\t"
  else if Nat.eqb n 10 then "\n"
  else if Nat.eqb n 13 then "\r"
  else if Nat.ltb n 32 || Nat.eqb n 127
       then String "\" (String "x" (String (hex_digit (n / 16)) (String (hex_digit (n mod 16)) "")))
  else String c "".

Fixpoint escape (q : ascii) (s : string) : string :=
  match s with
  | EmptyString => ""
  | String c r => escape_char q c +:+ escape q r
  end.

(** Text is held as its UTF-8 bytes; the bytes of a character outside
    ASCII are copied, as [repr] does for printable characters. *)
Definition repr_str (s : string) : string :=
  let q := quote_of s in String q (escape q s +:+ String q "").

Definition join (sep : string) (l : list string) : string :=
  match l with
  | [] => ""
  | x :: r => fold_left (fun acc y => acc +:+ sep +:+ y) r x
  end.

Fixpoint py_repr (v : PyVal) : string :=
  match v with
  | PyNone => "None"
  | PyBool true => "True"
  | PyBool false => "False"
  | PyInt z => pretty z
  | PyStr s => repr_str s
  | PyTuple [x] => "(" +:+ py_repr x +:+ ",)"
  | PyTuple xs => "(" +:+ join ", " (map py_repr xs) +:+ ")"
  | PyExc c args => class_name c +:+ "(" +:+ join ", " (map py_repr args) +:+ ")"
  | PyObj _ _ text => text
  end.

(** [str(v)], also what an f-string field renders.  An exception instance
    uses [BaseException.__str__]: nothing for no argument, the [str] of a
    single argument, else the [repr] of the [args] tuple.  The classes
    under [OSError] have a [__str__] of their own: an instance made from two
    arguments, the error number and its text, renders as [[Errno n] text]. *)
Fixpoint py_str (v : PyVal) : string :=
  match v with
  | PyStr s => s
  | PyExc _ [] => ""
  | PyExc _ [a] => py_str a
  | PyExc c [a; b] =>
      if derives_OSError c
      then "[Errno " +:+ py_str a +:+ "] " +:+ py_str b
      else py_repr (PyTuple [a; b])
  | PyExc _ args => py_repr (PyTuple args)
  | _ => py_repr v
  end.

(** [len(s)] for a [str]: the number of its characters.  Text is held as
    its UTF-8 bytes, where every character has exactly one byte that is not
    a continuation byte (128 to 191). *)
Definition is_continuation (c : ascii) : bool :=
  let n := nat_of_ascii c in (128 <=? n)%nat && (n <=? 191)%nat.

Fixpoint py_len (s : string) : nat :=
  match s with
  | EmptyString => 0%nat
  | String c r => if is_continuation c then py_len r else Datatypes.S (py_len r)
  end.

(** [repr] of a [dict] with [str] keys, in insertion order. *)
Definition repr_dict (kw : list (string * PyVal)) : string :=
  "{" +:+ join ", " (map (fun kv => repr_str (fst kv) +:+ ": " +:+ py_repr (snd kv)) kw) +:+ "}".

(** The rendering of [type(v)]: builtins have no module prefix. *)
Definition class_qualname (c : ExcClass) : string :=
  match c with
  | UserExc m n _ => if String.eqb m "builtins" then n else m +:+ "." +:+ n
  | _ => class_name c
  end.

Definition type_repr (v : PyVal) : string :=
  "<class '" +:+
  match v with
  | PyNone => "NoneType"
  | PyBool _ => "bool"
  | PyInt _ => "int"
  | PyStr _ => "str"
  | PyTuple _ => "tuple"
  | PyExc c _ => class_qualname c
  | PyObj m n _ => if String.eqb m "builtins" then n else m +:+ "." +:+ n
  end +:+ "'>".

(** [type(v).__name__] *)
Definition type_name (v : PyVal) : string :=
  match v with
  | PyNone => "NoneType"
  | PyBool _ => "bool"
  | PyInt _ => "int"
  | PyStr _ => "str"
  | PyTuple _ => "tuple"
  | PyExc c _ => class_name c
  | PyObj _ n _ => n
  end.

End Py.

(** ** Computations that may raise, block or die *)

Module Run.
Import Py.

(** How a computation ends: with a value, by raising [e], by never
    returning, or with its process gone. *)
Inductive Res (A : Type) : Type :=
| Ok (a : A)
| Exn (e : PyVal)
| Blocked
| Died.

Arguments Ok {A} a.
Arguments Exn {A} e.
Arguments Blocked {A}.
Arguments Died {A}.

Definition M (S A : Type) : Type := S -> Res A * S.

#[global] Instance M_ret {S} : MRet (M S) := fun A a s => (Ok a, s).

#[global] Instance M_bind {S} : MBind (M S) := fun A B f m s =>
  match m s with
  | (Ok a, s') => f a s'
  | (Exn e, s') => (Exn e, s')
  | (Blocked, s') => (Blocked, s')
  | (Died, s') => (Died, s')
  end.

(** [raise e] *)
Definition raise {S A} (e : PyVal) : M S A := fun s => (Exn e, s).

(** [try: body / except <classes> as e: handler e] *)
Definition try_except {S A} (body : M S A) (classes : PyVal -> bool)
    (handler : PyVal -> M S A) : M S A := fun s =>
  match body s with
  | (Exn e, s') => if classes e then handler e s' else (Exn e, s')
  | r => r
  end.

(** [if c: body] *)
Definition when {S} (c : bool) (body : M S unit) : M S unit :=
  if c then body else mret tt.

(** [for x in xs: body x], where the body may [return] from the enclosing
    function ([Some v]) or fall through to the next round ([None]);
    [orelse] is the code after the loop. *)
Fixpoint for_in {S X A} (xs : list X) (body : X -> M S (option A)) (orelse : M S A) : M S A :=
  match xs with
  | [] => orelse
  | x :: rest => o ← body x; match o with
                            | Some v => mret v
                            | None => for_in rest body orelse
                            end
  end.

(** [range(a, b)] *)
Definition range (a b : Z) : list Z :=
  map (fun i => a + Z.of_nat i) (seq 0 (Z.to_nat (b - a))).

(** [t[i]] for a tuple [t] with the items [xs] *)
Definition item {S} (xs : list PyVal) (i : nat) : M S PyVal :=
  match nth_error xs i with
  | Some x => mret x
  | None => raise (PyExc IndexError [PyStr "tuple index out of range"])
  end.

End Run.

(** ** The processes, the queue and the library calls *)

Module Harness.
Import Py Run.

(** Library calls whose failure the harness code provides for (or forgets
    to).  [install_queue_handler] stands for lines 75-81 of [_wrapped_func],
    the others are single calls. *)
Inductive LibCall : Type :=
| setrlimit
| install_queue_handler
| manager_queue
| queue_listener
| listener_start
| atexit_register
| listener_stop
| atexit_unregister.

Inductive Level : Type := WARNING | ERROR.

(** What a process did, oldest first. *)
Inductive Event : Type :=
| Lib (c : LibCall)
| Print (text : string)
| Called (name : string)
| Put (v : PyVal)
| Log (lvl : Level) (text : string)
| Start
| Join (timeout : option Z)
| IsAlive
| Terminate
| Get.

(** What lies outside the program: which library calls raise, and the text
    [traceback.format_exc()] renders for an exception being handled.  The
    result queue is a pipe between two processes: [pickled v] is the
    number of bytes the pickle of [v] takes in it, or [None] for a value
    that cannot be pickled; [pipe_capacity] is the number of bytes the pipe
    holds while nobody reads it; [unpickled v] is the error that loading
    the pickle of [v] raises in the parent, or [None] when it loads, as
    [v]. *)
Record Env : Type := {
  fails : LibCall -> option (ExcClass * list PyVal);
  format_exc : PyVal -> string;
  pickled : PyVal -> option N;
  pipe_capacity : N;
  unpickled : PyVal -> option (ExcClass * list PyVal)
}.

(** How one call [func()] ends. *)
Inductive Outcome : Type :=
| Return (v : PyVal)
| Raise (cls : ExcClass) (args : list PyVal)
| Exit          (* the process dies inside the call: os._exit, a fatal signal *)
| Hang.         (* the call never returns *)

(** A [functools.partial]: the name of the wrapped function, the bound
    arguments, and what calling it does: it runs for [seconds] and ends as
    [outcome]; [ignores_sigterm] tells whether the work blocks SIGTERM.
    It is a partial that [process.start()] can hand to a child in the start
    mode of the call: in the modes other than fork, one that can be
    pickled. *)
Record partial : Type := {
  func_name : string;
  args : list PyVal;
  keywords : list (string * PyVal);
  seconds : N;
  outcome : Outcome;
  ignores_sigterm : bool
}.

(** *** The child process *)

Record Child : Type := {
  c_clock : N;              (* seconds since the process started *)
  c_queue : list PyVal;     (* what it has handed to the result queue *)
  c_trace : list Event
}.

Definition child0 : Child := {| c_clock := 0; c_queue := []; c_trace := [] |}.

Definition c_event (ev : Event) (c : Child) : Child :=
  {| c_clock := c_clock c; c_queue := c_queue c; c_trace := c_trace c ++ [ev] |}.

Definition c_lib (env : Env) (call : LibCall) : M Child unit := fun c =>
  match fails env call with
  | Some (cls, a) => (Exn (PyExc cls a), c_event (Lib call) c)
  | None => (Ok tt, c_event (Lib call) c)
  end.

Definition print (text : string) : M Child unit := fun c =>
  (Ok tt, c_event (Print text) c).

(** [queue.put(v)]: the value is handed to the feeder thread of the queue,
    which pickles it and writes it to the pipe later ([child_run]); the
    call itself returns at once and does not raise. *)
Definition put (v : PyVal) : M Child unit := fun c =>
  (Ok tt, {| c_clock := c_clock c; c_queue := c_queue c ++ [v];
             c_trace := c_trace c ++ [Put v] |}).

(** [func()] *)
Definition call (func : partial) : M Child PyVal := fun c =>
  let c' := {| c_clock := (c_clock c + seconds func)%N; c_queue := c_queue c;
               c_trace := c_trace c ++ [Called (func_name func)] |} in
  match outcome func with
  | Return v => (Ok v, c')
  | Raise cls a => (Exn (PyExc cls a), c')
  | Exit => (Died, c')
  | Hang => (Blocked, c_event (Called (func_name func)) c)
  end.

(** [_wrapped_func(func, log_queue, queue)].  [log_queue] tells whether the
    argument is a queue ([true]) or [None]; the result queue is the child's
    [c_queue]. *)
Definition _wrapped_func (env : Env) (func : partial) (log_queue : bool) : M Child unit :=
  c_lib env setrlimit;;
  try_except
    (when log_queue
       (try_except
          (c_lib env install_queue_handler)
          is_Exception
          (fun e => print ("Non-fatal: exception trying to implement proper logging: " +:+ py_str e)));;
     result ← call func;
     put (PyTuple [result]))
    (fun e => is_Exception e || is_BaseException e)
    (fun e =>
       let stack_trace := format_exc env e in
       put (PyTuple [e; PyStr stack_trace])).

(** *** The parent process *)

(** An item in the pipe of the result queue, as [queue.get] meets it: a
    pickle that loads as the value [v], or one whose loading raises. *)
Inductive Item : Type :=
| Loaded (v : PyVal)
| Unloadable (cls : ExcClass) (args : list PyVal).

(** The child as the parent's operating system sees it: when it exits on
    its own (never, if [None]), what it has written to the result queue by
    then, and whether it survives SIGTERM. *)
Record ChildRun : Type := {
  exit_after : option N;
  writes : list Item;
  stubborn : bool;
  child_trace : list Event
}.

Inductive Proc : Type :=
| NotStarted
| Running (r : ChildRun)
| Signalled (r : ChildRun)
| Exited.

(** The parent's state: the result queue as the parent can read it, the
    process handle, the two locals that are assigned inside a [try]
    ([log_queue is not None], [listener is not None]), and what it did. *)
Record Sys : Type := {
  queue : list Item;
  proc : Proc;
  log_queue : bool;
  listener : bool;
  trace : list Event
}.

Definition sys0 : Sys :=
  {| queue := []; proc := NotStarted; log_queue := false; listener := false; trace := [] |}.

Definition event (ev : Event) (s : Sys) : Sys :=
  {| queue := queue s; proc := proc s; log_queue := log_queue s;
     listener := listener s; trace := trace s ++ [ev] |}.

Definition set_proc (p : Proc) (q : list Item) (s : Sys) : Sys :=
  {| queue := q; proc := p; log_queue := log_queue s;
     listener := listener s; trace := trace s |}.

Definition lib (env : Env) (call : LibCall) : M Sys unit := fun s =>
  match fails env call with
  | Some (cls, a) => (Exn (PyExc cls a), event (Lib call) s)
  | None => (Ok tt, event (Lib call) s)
  end.

(** [bt.logging.warning], [bt.logging.error] *)
Definition log (lvl : Level) (text : string) : M Sys unit := fun s =>
  (Ok tt, event (Log lvl text) s).

Definition assign_log_queue : M Sys unit := fun s =>
  (Ok tt, {| queue := queue s; proc := proc s; log_queue := true;
             listener := listener s; trace := trace s |}).

Definition assign_listener : M Sys unit := fun s =>
  (Ok tt, {| queue := queue s; proc := proc s; log_queue := log_queue s;
             listener := true; trace := trace s |}).

Definition read {A} (f : Sys -> A) : M Sys A := fun s => (Ok (f s), s).

(** The pickle of [v] as the parent will meet it. *)
Definition deliver (env : Env) (v : PyVal) : Item :=
  match unpickled env v with
  | Some (cls, a) => Unloadable cls a
  | None => Loaded v
  end.

(** The feeder thread of the result queue in the child: of the values
    handed to the queue, it drops those that cannot be pickled and writes
    the pickles of the others to the pipe. *)
Fixpoint delivered (env : Env) (q : list PyVal) : list Item :=
  match q with
  | [] => []
  | v :: rest =>
      match pickled env v with
      | Some _ => deliver env v :: delivered env rest
      | None => delivered env rest
      end
  end.

(** The bytes the feeder thread has to write. *)
Fixpoint pipe_bytes (env : Env) (q : list PyVal) : N :=
  match q with
  | [] => 0%N
  | v :: rest =>
      match pickled env v with
      | Some n => (pipe_bytes env rest + n)%N
      | None => pipe_bytes env rest
      end
  end.

(** A process that ends waits for the feeder thread of its queue, and the
    feeder thread is done once the pipe has taken all its bytes: at once
    when they fit, and else only as the parent reads, which
    [run_in_subprocess] does not do before the child has exited. *)
Definition flushed (env : Env) (q : list PyVal) : bool :=
  (pipe_bytes env q <=? pipe_capacity env)%N.

(** The run of a child started on [_wrapped_func], in a state of its own:
    it exits when [_wrapped_func] returns or raises and the pipe has taken
    what was put, or when it dies, and never if the work blocks or the pipe
    is full. *)
Definition child_run (env : Env) (func : partial) (log_queue : bool) : ChildRun :=
  let '(r, c) := _wrapped_func env func log_queue child0 in
  {| exit_after := match r with
                   | Blocked => None
                   | _ => if flushed env (c_queue c) then Some (c_clock c) else None
                   end;
     writes := delivered env (c_queue c);
     stubborn := ignores_sigterm func;
     child_trace := c_trace c |}.

(** [process = ctx.Process(target=_wrapped_func, args=[func, log_queue, queue])]
    and [process.start()], for a partial that can be handed to the child
    (see [partial]): the child runs from here on. *)
Definition process_start (env : Env) (func : partial) : M Sys unit := fun s =>
  (Ok tt, event Start (set_proc (Running (child_run env func (log_queue s))) (queue s) s)).

(** [process.join(timeout)].  With a timeout it returns when the child has
    exited or the time is up; without one it returns only when the child
    has exited: at once if SIGTERM killed it, when it ends on its own
    otherwise, and never if it does neither. *)
Definition process_join (timeout : option Z) : M Sys unit := fun s =>
  let s1 := event (Join timeout) s in
  match proc s, timeout with
  | Running r, Some ttl =>
      match exit_after r with
      | Some t => if (Z.of_N t <=? ttl)%Z
                  then (Ok tt, set_proc Exited (queue s ++ writes r) s1)
                  else (Ok tt, s1)
      | None => (Ok tt, s1)
      end
  | Running r, None =>
      match exit_after r with
      | Some _ => (Ok tt, set_proc Exited (queue s ++ writes r) s1)
      | None => (Blocked, s1)
      end
  | Signalled r, None =>
      if stubborn r
      then match exit_after r with
           | Some _ => (Ok tt, set_proc Exited (queue s ++ writes r) s1)
           | None => (Blocked, s1)
           end
      else (Ok tt, set_proc Exited (queue s) s1)
  | _, _ => (Ok tt, s1)
  end.

(** [process.is_alive()] *)
Definition process_is_alive : M Sys bool := fun s =>
  (Ok match proc s with Running _ | Signalled _ => true | _ => false end,
   event IsAlive s).

(** [process.terminate()]: send SIGTERM. *)
Definition process_terminate : M Sys unit := fun s =>
  let s1 := event Terminate s in
  match proc s with
  | Running r => (Ok tt, set_proc (Signalled r) (queue s) s1)
  | _ => (Ok tt, s1)
  end.

(** [queue.get(block=False)]: the next item is taken from the pipe and
    its pickle loaded. *)
Definition queue_get : M Sys PyVal := fun s =>
  let s1 := event Get s in
  match queue s with
  | Loaded x :: rest => (Ok x, set_proc (proc s) rest s1)
  | Unloadable cls a :: rest => (Exn (PyExc cls a), set_proc (proc s) rest s1)
  | [] => (Exn (PyExc Empty []), s1)
  end.

Inductive StartMethod : Type := fork | spawn | forkserver.

Definition is_spawn (mode : StartMethod) : bool :=
  match mode with spawn => true | _ => false end.

(** [queue = ctx.Queue()], [log_queue = None], [listener = None]: every
    call starts with a queue and a process handle of its own. *)
Definition fresh : M Sys unit := fun s =>
  (Ok tt, {| queue := []; proc := NotStarted; log_queue := false;
             listener := false; trace := trace s |}).

(** Lines 102-125 of [run_in_subprocess]: set up the queues and the
    listener, start the child and wait for it up to [ttl] seconds. *)
Definition launch_and_join (env : Env) (func : partial) (ttl : Z) (mode : StartMethod)
    : M Sys unit :=
  fresh;;
  when (is_spawn mode)
    (try_except
       (lib env manager_queue;;
        assign_log_queue;;
        lib env queue_listener;;
        assign_listener;;
        lib env listener_start;;
        lib env atexit_register)
       is_Exception
       (fun e => log WARNING
          ("Non-fatal: failed to implement proper logging for child process: " +:+ py_str e)));;
  process_start env func;;
  process_join (Some ttl).

(** Lines 127-143 of [run_in_subprocess]: stop the listener, kill a child
    that is still alive, else read the result queue. *)
Definition receive (env : Env) (func : partial) (ttl : Z) : M Sys PyVal :=
  has_listener ← read listener;
  when has_listener
    (try_except
       (lib env listener_stop;;
        lib env atexit_unregister)
       (fun _ => true)
       (fun _ => mret tt));;
  alive ← process_is_alive;
  if alive : bool then
    process_terminate;;
    process_join None;;
    raise (PyExc TimeoutError
             [PyStr ("Failed to " +:+ func_name func +:+ " after " +:+ pretty ttl +:+ " seconds")])
  else
    try_except queue_get is_Exception
      (fun e => raise (PyExc Exception
         [PyStr ("Failed to get result from subprocess " +:+ func_name func
                 +:+ "(*args=" +:+ py_str (PyTuple (args func))
                 +:+ ",**kwargs=" +:+ repr_dict (keywords func) +:+ "): " +:+ py_str e)])).

(** Lines 145-157 of [run_in_subprocess]: return or raise what was read. *)
Definition interpret (expected_errors : gset string) (result : PyVal) : M Sys PyVal :=
  match result with
  | PyTuple items =>
      result_0 ← item items 0;
      if is_Exception result_0 then
        when (bool_decide (type_name result_0 ∉ expected_errors))
          (result_1 ← item items 1;
           log ERROR ("Exception in subprocess:" +:+ LF +:+ py_str result_1));;
        raise result_0
      else if is_BaseException result_0 then
        result_1 ← item items 1;
        log ERROR ("BaseException in subprocess:" +:+ LF +:+ py_str result_1);;
        raise (PyExc Exception
                 [PyStr ("BaseException raised in subprocess: " +:+ py_str result_0)])
      else
        mret result_0
  | _ =>
      raise (PyExc Exception
               [PyStr ("Unexpected result from subprocess, type " +:+ type_repr result
                       +:+ ": " +:+ py_str result)])
  end.

(** Lines 127-157: everything after the bounded wait. *)
Definition collect (env : Env) (func : partial) (ttl : Z) (expected_errors : gset string)
    : M Sys PyVal :=
  result ← receive env func ttl;
  interpret expected_errors result.

(** [run_in_subprocess(func, ttl, mode, expected_errors)]; the defaults
    are [mode="fork"] and [expected_errors={}]. *)
Definition run_in_subprocess (env : Env) (func : partial) (ttl : Z) (mode : StartMethod)
    (expected_errors : gset string) : M Sys PyVal :=
  launch_and_join env func ttl mode;;
  collect env func ttl expected_errors.

(** *** Vocabulary for the statements *)

(** The texts logged at error severity, oldest first. *)
Fixpoint errors_logged (l : list Event) : list string :=
  match l with
  | [] => []
  | Log ERROR text :: r => text :: errors_logged r
  | _ :: r => errors_logged r
  end.

(** Whether the result queue was read. *)
Fixpoint reads_queue (l : list Event) : bool :=
  match l with
  | [] => false
  | Get :: _ => true
  | _ :: r => reads_queue r
  end.

(** Events that neither log an error nor read the result queue. *)
Definition quiet (l : list Event) : Prop :=
  errors_logged l = [] /\ reads_queue l = false.

(** Every library call that fails raises an ordinary error. *)
Definition ordinary_failures (env : Env) : Prop :=
  forall c cls a, fails env c = Some (cls, a) -> derives_Exception cls = true.


(** The envelope that the child puts for a work that returns or raises. *)
Definition envelope (env : Env) (o : Outcome) : option PyVal :=
  match o with
  | Return v => Some (PyTuple [v])
  | Raise cls a => Some (PyTuple [PyExc cls a; PyStr (format_exc env (PyExc cls a))])
  | Exit | Hang => None
  end.

(** The child of a work never exits on its own: the work never ends, or
    the pipe cannot take the envelope. *)
Definition stuck (env : Env) (func : partial) : bool :=
  match outcome func with
  | Hang => true
  | Exit => false
  | o => match envelope env o with
         | Some x => negb (flushed env [x])
         | None => false
         end
  end.

End Harness.

(** ** The retry wrapper *)

Module Retry.
Import Py Run.

(** What [run_with_retry] did, oldest first. *)
Inductive Step : Type :=
| Invoke          (* one call of [func] *)
| Sleep (d : Z).  (* [time.sleep(d)] *)

(** The state of the work (any type [W]) and the steps taken so far. *)
Record St (W : Type) : Type := {
  work : W;
  steps : list Step
}.

Arguments work {W} s.
Arguments steps {W} s.

Definition st0 {W} (w : W) : St W := {| work := w; steps := [] |}.

(** [func()]: the callable is any computation over its own state. *)
Definition invoke {W} (func : M W PyVal) : M (St W) PyVal := fun s =>
  let '(r, w) := func (work s) in
  (r, {| work := w; steps := steps s ++ [Invoke] |}).

(** [time.sleep(d)] refuses a negative length. *)
Definition sleep {W} (d : Z) : M (St W) unit := fun s =>
  if (d <? 0)%Z
  then (Exn (PyExc ValueError [PyStr "sleep length must be non-negative"]), s)
  else (Ok tt, {| work := work s; steps := steps s ++ [Sleep d] |}).

(** [run_with_retry(func, max_retries, delay_seconds)]; the fourth
    parameter, [single_try_timeout], is never read. *)
Definition run_with_retry {W} (func : M W PyVal) (max_retries delay_seconds : Z)
    : M (St W) PyVal :=
  for_in (range 1 (max_retries + 1))
    (fun attempt =>
       try_except
         (v ← invoke func; mret (Some v))
         is_Exception
         (fun e =>
            if (attempt =? max_retries)%Z
            then raise e
            else sleep delay_seconds;; mret None))
    (raise (PyExc Exception
              [PyStr "Unexpected state: Ran with retry but didn't hit a terminal state"])).

(** *** Vocabulary for the statements *)

(** [failures func n w = Some w']: from the state [w], the first [n] calls
    of [func] each raise an [Exception], and leave the work in [w']. *)
Fixpoint failures {W} (func : M W PyVal) (n : nat) (w : W) : option W :=
  match n with
  | O => Some w
  | S n' => match func w with
            | (Exn e, w') => if is_Exception e then failures func n' w' else None
            | _ => None
            end
  end.

(** [n] failed attempts, each followed by the wait. *)
Fixpoint rounds (d : Z) (n : nat) : list Step :=
  match n with
  | O => []
  | S n' => Invoke :: Sleep d :: rounds d n'
  end.

(** How many times the work was called. *)
Fixpoint invocations (l : list Step) : nat :=
  match l with
  | [] => 0
  | Invoke :: r => S (invocations r)
  | Sleep _ :: r => invocations r
  end.

End Retry.

(** ** Registration, repository ids and the network graph *)

Module Bt.

(** The arithmetic and the comparisons of the floating-point numbers of a
    metagraph (stakes, weights), as an interface: the code adds them up,
    scales them, and compares them. *)
Class Float (F : Type) : Type := {
  f_zero : F;                (* the [0] of [sum] and of [w > 0] *)
  f_add : F -> F -> F;       (* [a + b] *)
  f_mul : F -> F -> F;       (* [a * b] *)
  f_eqb : F -> F -> bool;    (* [a == b] *)
  f_ltb : F -> F -> bool     (* [a < b]; [a > b] is [b < a] *)
}.

(** The attributes of a [bt.metagraph] that the file reads. *)
Record metagraph (F : Type) : Type := {
  netuid : Z;
  hotkeys : list string;
  S : list F;
  validator_permit : list bool;
  weights : list (list F)
}.

Arguments netuid {F} m.
Arguments hotkeys {F} m.
Arguments S {F} m.
Arguments validator_permit {F} m.
Arguments weights {F} m.

(** Of a [bt.wallet], the file reads [wallet.hotkey.ss58_address]. *)
Record wallet : Type := {
  hotkey_ss58_address : string
}.

End Bt.

Module Registry.
Import Py Run.

(** [l.index(x)]: the first position of [x]. *)
Fixpoint list_index (x : string) (l : list string) : option nat :=
  match l with
  | [] => None
  | y :: r => if String.eqb y x then Some 0%nat
              else match list_index x r with
                   | Some i => Some (Datatypes.S i)
                   | None => None
                   end
  end.

(** [x in l] *)
Fixpoint list_contains (x : string) (l : list string) : bool :=
  match l with
  | [] => false
  | y :: r => if String.eqb y x then true else list_contains x r
  end.

(** [bt.logging.success(text)]: the state is the list of the texts logged,
    oldest first. *)
Definition success (text : string) : M (list string) unit := fun logged =>
  (Ok tt, logged ++ [text]).

(** [assert_registered(wallet, metagraph)] *)
Definition assert_registered {F} (wallet : Bt.wallet) (metagraph : Bt.metagraph F)
    : M (list string) nat :=
  let address := Bt.hotkey_ss58_address wallet in
  if negb (list_contains address (Bt.hotkeys metagraph)) then
    raise (PyExc ValueError
      [PyStr ("You are not registered. " +:+ LF +:+ "Use: " +:+ LF
              +:+ "`btcli s register --netuid " +:+ pretty (Bt.netuid metagraph)
              +:+ "` to register via burn " +:+ LF
              +:+ " or btcli s pow_register --netuid " +:+ pretty (Bt.netuid metagraph)
              +:+ " to register with a proof of work")])
  else
    match list_index address (Bt.hotkeys metagraph) with
    | None => raise (PyExc ValueError [PyStr (repr_str address +:+ " is not in list")])
    | Some uid =>
        success ("You are registered with address: " +:+ address +:+ " and uid: "
                 +:+ pretty uid);;
        mret uid
    end.

End Registry.

Module HfRepo.
Import Py Run.

(** [s.split(sep)] for a separator of one character: the pieces between
    the occurrences of [sep], one more than there are occurrences. *)
Fixpoint split (sep : ascii) (s : string) : list string :=
  match s with
  | EmptyString => [EmptyString]
  | String c r =>
      if Ascii.eqb c sep then EmptyString :: split sep r
      else match split sep r with
           | p :: ps => String c p :: ps
           | [] => [String c EmptyString]
           end
  end.

(** [validate_hf_repo_id(repo_id)].  [MAX_REPO_ID_LENGTH] is the constant
    [ModelId.MAX_REPO_ID_LENGTH] of [model/data.py]; [len] counts the
    characters of the text, and [split] cuts at the byte of the slash, which
    is part of no other character. *)
Definition validate_hf_repo_id {W} (MAX_REPO_ID_LENGTH : Z) (repo_id : string)
    : M W (string * string) :=
  if String.eqb repo_id "" then
    raise (PyExc ValueError [PyStr "Hugging Face repo id cannot be empty."])
  else if negb ((3 <? Z.of_nat (py_len repo_id))%Z
                && (Z.of_nat (py_len repo_id) <=? MAX_REPO_ID_LENGTH)%Z) then
    raise (PyExc ValueError
      [PyStr ("Hugging Face repo id must be between 3 and " +:+ pretty MAX_REPO_ID_LENGTH
              +:+ " characters. Got=" +:+ repo_id)])
  else
    let parts := split "/" repo_id in
    match parts with
    | [namespace; name] => mret (namespace, name)
    | _ =>
        raise (PyExc ValueError
          [PyStr ("Hugging Face repo id must be in the format <org or user name>/<repo_name>. Got="
                  +:+ repo_id)])
    end.

(** Of a [ModelMetadata], [get_hf_url] reads [id.namespace], [id.name] and
    [id.commit]; the classes are declared in [model/data.py]. *)
Record ModelId : Type := {
  namespace : string;
  name : string;
  commit : string
}.

Record ModelMetadata : Type := {
  id : ModelId
}.

(** [get_hf_url(model_metadata)] *)
Definition get_hf_url (model_metadata : ModelMetadata) : string :=
  "https://huggingface.co/" +:+ namespace (id model_metadata) +:+ "/"
  +:+ name (id model_metadata) +:+ "/tree/" +:+ commit (id model_metadata).

End HfRepo.

Module Valis.
Import Py Run Bt.

(** [enumerate(l)] *)
Definition enumerate {A} (l : list A) : list (nat * A) :=
  combine (seq 0 (length l)) l.

(** [a < b] on tuples [(stake, uid)]: the first items decide unless they
    are equal. *)
Definition tuple_lt {F} `{Float F} (a b : F * nat) : bool :=
  if f_eqb (fst a) (fst b) then (snd a <? snd b)%nat else f_ltb (fst a) (fst b).

(** [sorted(l, reverse=True)]: the greatest first, equal items in their
    order in [l]. *)
Fixpoint insert_desc {A} (lt : A -> A -> bool) (x : A) (l : list A) : list A :=
  match l with
  | [] => [x]
  | y :: r => if lt x y then y :: insert_desc lt x r else x :: l
  end.

Definition sorted_reverse {A} (lt : A -> A -> bool) (l : list A) : list A :=
  foldr (insert_desc lt) [] l.

(** [l[:n]]: a negative [n] counts from the end. *)
Definition slice_to {A} (n : Z) (l : list A) : list A :=
  if (n <? 0)%Z
  then take (Z.to_nat (Z.max 0 (Z.of_nat (length l) + n))) l
  else take (Z.to_nat n) l.

(** The loop of [get_top_valis]: [valis.append((stake, uid))] for the
    entries with a validator permit; [validator_permit[uid]] raises when
    there is no such entry. *)
Fixpoint collect_valis {W F} (permit : list bool) (entries : list (nat * F))
    (valis : list (F * nat)) : M W (list (F * nat)) :=
  match entries with
  | [] => mret valis
  | (uid, stake) :: rest =>
      match nth_error permit uid with
      | None => raise (PyExc IndexError [PyStr "list index out of range"])
      | Some true => collect_valis permit rest (valis ++ [(stake, uid)])
      | Some false => collect_valis permit rest valis
      end
  end.

(** [get_top_valis(metagraph, n)] *)
Definition get_top_valis {W F} `{Float F} (metagraph : Bt.metagraph F) (n : Z)
    : M W (list nat) :=
  valis ← collect_valis (validator_permit metagraph) (enumerate (S metagraph)) [];
  mret (map snd (slice_to n (sorted_reverse tuple_lt valis))).

(** [bt.logging.warning(text)]: the state is the list of the warnings,
    oldest first. *)
Definition warning (text : string) : M (list string) unit := fun logged =>
  (Ok tt, logged ++ [text]).

(** The body of the outer loop of [list_top_miners] for a validator with a
    row of weights: the positions whose weight is positive and above
    [TOP_MINER_FRACTION] times the sum of the positive weights. *)
Definition miners_of_row {F} `{Float F} (TOP_MINER_FRACTION : F) (row : list F) : list nat :=
  let weights := filter (fun uw => f_ltb f_zero (snd uw) = true) (enumerate row) in
  let total_weight := fold_left f_add (map snd weights) f_zero in
  let threshold := f_mul TOP_MINER_FRACTION total_weight in
  map fst (filter (fun uw => f_ltb threshold (snd uw) = true) weights).

(** The outer loop of [list_top_miners], with the set [top_miners] so
    far. *)
Fixpoint scan_valis {F} `{Float F} (TOP_MINER_FRACTION : F) (rows : list (list F))
    (valis_by_stake : list nat) (top_miners : gset nat) : M (list string) (gset nat) :=
  match valis_by_stake with
  | [] => mret top_miners
  | uid :: rest =>
      match nth_error rows uid with
      | None =>
          warning ("Vali UID " +:+ pretty uid +:+ " not in metagraph.weights");;
          scan_valis TOP_MINER_FRACTION rows rest top_miners
      | Some row =>
          scan_valis TOP_MINER_FRACTION rows rest
            (top_miners ∪ list_to_set (miners_of_row TOP_MINER_FRACTION row))
      end
  end.

(** [list_top_miners(metagraph)], up to the order of [list(top_miners)],
    which Python leaves open: the result is the set.
    [TOP_MINER_FRACTION] is the constant of the module [constants]. *)
Definition list_top_miners {F} `{Float F} (TOP_MINER_FRACTION : F)
    (metagraph : Bt.metagraph F) : M (list string) (gset nat) :=
  valis_by_stake ← get_top_valis metagraph 10;
  scan_valis TOP_MINER_FRACTION (weights metagraph) valis_by_stake ∅.

(** *** Vocabulary for the statements *)

(** The tuples [(stake, uid)] of the entries with a validator permit, in
    the order of their uids. *)
Definition validators {F} (m : Bt.metagraph F) : list (F * nat) :=
  map (fun us => (snd us, fst us))
      (filter (fun us => nth_error (validator_permit m) (fst us) = Some true)
              (enumerate (S m))).

(** The sum of the positive weights of a row, as [sum] adds them up: from
    [0], in the order of the row. *)
Definition positive_total {F} `{Float F} (row : list F) : F :=
  fold_left f_add (filter (fun x => f_ltb f_zero x = true) row) f_zero.

(** The warning for a validator without a row of weights. *)
Definition no_row_warning (uid : nat) : string :=
  "Vali UID " +:+ pretty uid +:+ " not in metagraph.weights".

(** The numbers compare as floats other than NaN do: [==] is an
    equivalence, [<] a strict order that respects it, and two numbers that
    are not [==] are [<] one way. *)
Record ordered (F : Type) `{Float F} : Prop := {
  eqb_refl : forall a, f_eqb a a = true;
  eqb_sym : forall a b, f_eqb a b = true -> f_eqb b a = true;
  eqb_trans : forall a b c, f_eqb a b = true -> f_eqb b c = true -> f_eqb a c = true;
  ltb_eqb : forall a b, f_eqb a b = true -> f_ltb a b = false;
  ltb_trans : forall a b c, f_ltb a b = true -> f_ltb b c = true -> f_ltb a c = true;
  ltb_total : forall a b, f_eqb a b = false -> f_ltb a b = false -> f_ltb b a = true;
  ltb_eqb_l : forall a b c, f_eqb a b = true -> f_ltb a c = f_ltb b c;
  ltb_eqb_r : forall a b c, f_eqb a b = true -> f_ltb c a = f_ltb c b
}.

End Valis.

(** ** More vocabulary for the retry wrapper *)

Module RetryMore.
Import Retry.

(** The lengths of the waits among the steps, oldest first. *)
Fixpoint sleeps (l : list Step) : list Z :=
  match l with
  | [] => []
  | Invoke :: r => sleeps r
  | Sleep d :: r => d :: sleeps r
  end.

End RetryMore.

(** ** More sample inputs *)

Module MoreSamples.
Import Py Run.

(** Numbers with one binary digit after the point, held as the count of
    halves: [z] stands for [z / 2]. *)
#[global] Instance halves : Bt.Float Z := {|
  Bt.f_zero := 0;
  Bt.f_add := Z.add;
  Bt.f_mul := fun a b => (a * b / 2)%Z;
  Bt.f_eqb := Z.eqb;
  Bt.f_ltb := Z.ltb
|}.

(** Five neurons: all but the third have a validator permit, the second
    and the fourth have the greatest stake, and the fifth has no row of
    weights. *)
Definition graph : Bt.metagraph Z :=
  {| Bt.netuid := 29;
     Bt.hotkeys := ["5Fa"; "5Gb"; "5Hc"; "5Gb"; "5Je"];
     Bt.S := [20; 60; 40; 60; 10];
     Bt.validator_permit := [true; true; false; true; true];
     Bt.weights := [[0; 12; 2; 0; 0];
                    [0; 0; 4; 4; 0];
                    [0; 0; 0; 0; 0];
                    [2; 0; 0; 0; 16]] |}.

(** The same graph with an entry of [validator_permit] missing. *)
Definition short_graph : Bt.metagraph Z :=
  {| Bt.netuid := 29;
     Bt.hotkeys := Bt.hotkeys graph;
     Bt.S := Bt.S graph;
     Bt.validator_permit := [true; true; false; true];
     Bt.weights := Bt.weights graph |}.

Definition miner : Bt.wallet := {| Bt.hotkey_ss58_address := "5Gb" |}.

(** The repository id [é/bc]: four characters in five bytes. *)
Definition accented_id : string :=
  String (ascii_of_nat 195) (String (ascii_of_nat 169) "/bc").

(** [TOP_MINER_FRACTION = 0.5] *)
Definition one_half : Z := 1.

(** A work that is killed from outside each time it is about to finish. *)
Definition interrupted : M nat PyVal := fun n =>
  if (n <? 1)%nat
  then (Exn (PyExc ValueError [PyStr "busy"]), Datatypes.S n)
  else (Exn (PyExc KeyboardInterrupt []), Datatypes.S n).

End MoreSamples.

(** ** The result envelope of the specification *)

Module Envelope.
Import Py.

(** The two variants of the specification's Result Envelope as the child
    encodes them: [Success(value)] is the tuple [(value,)] and
    [Failure(error, stack_trace_text)] is the tuple [(error, text)]. *)
Definition recognised (x : PyVal) : bool :=
  match x with
  | PyTuple [_] => true
  | PyTuple [_; _] => true
  | _ => false
  end.

End Envelope.

(** ** Sample inputs *)

Module Samples.
Import Py Run Harness.

Definition render (e : PyVal) : string :=
  "Traceback (most recent call last):" +:+ LF +:+ type_name e +:+ ": " +:+ py_str e +:+ LF.

(** A stand-in for the size of a pickle: the length of the [repr]. *)
Definition size (v : PyVal) : option N := Some (N.of_nat (String.length (py_repr v))).

(** Every library call succeeds, every value can be pickled and loaded,
    and the pipe holds 64 KiB. *)
Definition env_ok : Env :=
  {| fails := fun _ => None; format_exc := render;
     pickled := size; pipe_capacity := 65536; unpickled := fun _ => None |}.

(** The hard limit on open files is below 65000 and the process may not
    raise it. *)
Definition env_low_limit : Env :=
  {| fails := fun c => match c with
                       | setrlimit =>
                           Some (ValueError, [PyStr "not allowed to raise maximum limit"])
                       | _ => None
                       end;
     format_exc := render;
     pickled := size; pipe_capacity := 65536; unpickled := fun _ => None |}.

(** [class QuotaError(Exception)] whose [__init__(self, message, limit)]
    hands only [message] to [Exception.__init__]: an instance has one item
    in [args], and the class cannot be called with that alone. *)
Definition QuotaError : ExcClass := UserExc "app" "QuotaError" Exception.

(** As [env_ok], but a pickle that holds a [QuotaError] does not load:
    rebuilding the instance from its [args] raises a [TypeError]. *)
Definition env_unloadable : Env :=
  {| fails := fun _ => None; format_exc := render;
     pickled := size; pipe_capacity := 65536;
     unpickled := fun v =>
       match v with
       | PyTuple (PyExc (UserExc "app" "QuotaError" _) _ :: _) =>
           Some (TypeError,
                 [PyStr "QuotaError.__init__() missing 1 required positional argument: 'limit'"])
       | _ => None
       end |}.

(** As [env_ok], with a pipe that holds 64 bytes. *)
Definition env_small_pipe : Env :=
  {| fails := fun _ => None; format_exc := render;
     pickled := size; pipe_capacity := 64; unpickled := fun _ => None |}.

(** As [env_ok], but the logger of the child cannot be set up. *)
Definition env_no_handler : Env :=
  {| fails := fun c => match c with
                       | install_queue_handler =>
                           Some (ValueError, [PyStr "Unknown level: 20"])
                       | _ => None
                       end;
     format_exc := render;
     pickled := size; pipe_capacity := 65536; unpickled := fun _ => None |}.

(** [functools.partial(work, 1, 'a', k=None)], running [t] seconds. *)
Definition work (o : Outcome) (t : N) : partial :=
  {| func_name := "work"; args := [PyInt 1; PyStr "a"]; keywords := [("k", PyNone)];
     seconds := t; outcome := o; ignores_sigterm := false |}.

Definition boom : PyVal := PyExc ValueError [PyStr "boom"].

(** The same partial for a work that has set SIGTERM to be ignored. *)
Definition stubborn_work (o : Outcome) (t : N) : partial :=
  {| func_name := "work"; args := [PyInt 1; PyStr "a"]; keywords := [("k", PyNone)];
     seconds := t; outcome := o; ignores_sigterm := true |}.

(** A text of 80 characters. *)
Definition long_text : string :=
  "0123456789012345678901234567890123456789" +:+ "0123456789012345678901234567890123456789".

(** A function object, which [pickle] refuses when it is a lambda. *)
Definition a_lambda : PyVal :=
  PyObj "builtins" "function" "<function <lambda> at 0x7f3a5c1d2e50>".

(** As [env_ok], but an envelope that holds a function cannot be
    pickled. *)
Definition env_no_pickle : Env :=
  {| fails := fun _ => None; format_exc := render;
     pickled := fun v =>
       match v with
       | PyTuple (PyObj "builtins" "function" _ :: _) => None
       | _ => size v
       end;
     pipe_capacity := 65536; unpickled := fun _ => None |}.

(** A callable that fails on its first two calls and returns the number of
    earlier calls from the third on; its state counts the calls. *)
Definition flaky : M nat PyVal := fun n =>
  if (n <? 2)%nat
  then (Exn (PyExc ValueError [PyInt (Z.of_nat n)]), Datatypes.S n)
  else (Ok (PyInt (Z.of_nat n)), Datatypes.S n).

(** The parent right after a bounded wait in which the child has exited,
    with [q] in the result queue. *)
Definition exited (q : list PyVal) : Sys :=
  {| queue := map Loaded q; proc := Exited; log_queue := false; listener := false;
     trace := [Start; Join (Some 10)] |}.

End Samples.

(** * Properties *)

Import Py Run.

(** ** The monad *)

Section Monad.
Context {S A B : Type}.
Implicit Types (m : M S A) (f : A -> M S B) (s : S).

Lemma bind_Ok m f s a s' : m s = (Ok a, s') -> (m ≫= f) s = f a s'.
Proof. intros H. unfold mbind, M_bind. now rewrite H. Qed.

Lemma bind_Exn m f s e s' : m s = (Exn e, s') -> (m ≫= f) s = (Exn e, s').
Proof. intros H. unfold mbind, M_bind. now rewrite H. Qed.

Lemma bind_Blocked m f s s' : m s = (Blocked, s') -> (m ≫= f) s = (Blocked, s').
Proof. intros H. unfold mbind, M_bind. now rewrite H. Qed.

Lemma try_except_Ok m cl (h : PyVal -> M S A) s a s' :
  m s = (Ok a, s') -> try_except m cl h s = (Ok a, s').
Proof. intros H. unfold try_except. now rewrite H. Qed.

Lemma try_except_caught m cl (h : PyVal -> M S A) s e s' :
  m s = (Exn e, s') -> cl e = true -> try_except m cl h s = h e s'.
Proof. intros H Hc. unfold try_except. now rewrite H, Hc. Qed.

End Monad.

(** ** [range] *)

Lemma range_empty a b : (b <= a)%Z -> range a b = [].
Proof.
  intros H. unfold range.
  replace (Z.to_nat (b - a)) with 0%nat by lia. reflexivity.
Qed.

Lemma range_cons a b : (a < b)%Z -> range a b = a :: range (a + 1) b.
Proof.
  intros H. unfold range.
  replace (Z.to_nat (b - a)) with (Datatypes.S (Z.to_nat (b - (a + 1)))) by lia.
  cbn [seq map]. f_equal; [lia|].
  rewrite <- seq_shift, map_map.
  apply map_ext. intros i. lia.
Qed.

(** ** [run_with_retry] *)

Section RetryFacts.
Import Retry.
Context {W : Type}.
Variable func : M W PyVal.
Variables max_retries delay_seconds : Z.

(** The body of the loop, and the code after it. *)
Let body (attempt : Z) : M (St W) (option PyVal) :=
  try_except
    (v ← invoke func; mret (Some v))
    is_Exception
    (fun e =>
       if (attempt =? max_retries)%Z
       then raise e
       else sleep delay_seconds;; mret None).

Let orelse : M (St W) PyVal :=
  raise (PyExc Exception
           [PyStr "Unexpected state: Ran with retry but didn't hit a terminal state"]).

Lemma run_with_retry_unfold s :
  run_with_retry func max_retries delay_seconds s
  = for_in (range 1 (max_retries + 1)) body orelse s.
Proof. reflexivity. Qed.

(** A round that fails before the last attempt sleeps and goes on. *)
Lemma body_retries attempt w tr e w' :
  func w = (Exn e, w') -> is_Exception e = true ->
  (attempt <> max_retries)%Z -> (0 <= delay_seconds)%Z ->
  body attempt {| work := w; steps := tr |}
  = (Ok None, {| work := w'; steps := (tr ++ [Invoke]) ++ [Sleep delay_seconds] |}).
Proof.
  intros Hf He Ha Hd. unfold body, try_except, mbind, M_bind, invoke. cbn.
  rewrite Hf, He.
  destruct (Z.eqb_spec attempt max_retries) as [|_]; [contradiction|].
  unfold sleep. cbn.
  destruct (Z.ltb_spec delay_seconds 0) as [|_]; [lia|]. reflexivity.
Qed.

Lemma loop_failures k : forall a w tr w1,
  (a + Z.of_nat k <= max_retries)%Z ->
  (k = 0%nat \/ 0 <= delay_seconds)%Z ->
  failures func k w = Some w1 ->
  for_in (range a (max_retries + 1)) body orelse {| work := w; steps := tr |}
  = for_in (range (a + Z.of_nat k) (max_retries + 1)) body orelse
      {| work := w1; steps := tr ++ rounds delay_seconds k |}.
Proof.
  induction k as [|k IH]; intros a w tr w1 Ha Hd Hk.
  - cbn in Hk. injection Hk as <-. cbn. now rewrite Z.add_0_r, app_nil_r.
  - cbn [failures] in Hk.
    destruct (func w) as [[v|e| |] w'] eqn:Hf; try discriminate.
    destruct (is_Exception e) eqn:He; [|discriminate].
    rewrite (range_cons a) by lia. cbn [for_in].
    erewrite bind_Ok by (apply (body_retries a w tr e w'); auto; lia).
    rewrite (IH (a + 1)%Z w' _ w1) by (auto; lia).
    replace (a + Z.of_nat (Datatypes.S k))%Z with (a + 1 + Z.of_nat k)%Z by lia.
    cbn [rounds]. now rewrite <- !app_assoc.
Qed.

Lemma invocations_app l1 l2 : invocations (l1 ++ l2) = (invocations l1 + invocations l2)%nat.
Proof.
  induction l1 as [|[|d] l1 IH]; cbn; auto.
Qed.

Lemma invocations_rounds d k : invocations (rounds d k) = k.
Proof. induction k; cbn; auto. Qed.

End RetryFacts.

(** ** The child *)

Section ChildFacts.
Import Harness.
Variable env : Env.

(** Without a failure of [setrlimit], and with no logging failure other
    than an ordinary one, the child gets to call the work, and puts the
    envelope of what the work does. *)
Lemma _wrapped_func_reaches_work func lq :
  fails env setrlimit = None -> ordinary_failures env ->
  exists tr,
    _wrapped_func env func lq child0
    = (match outcome func with
       | Return _ | Raise _ _ => Ok tt
       | Exit => Died
       | Hang => Blocked
       end,
       {| c_clock := match outcome func with Hang => 0%N | _ => seconds func end;
          c_queue := match envelope env (outcome func) with Some x => [x] | None => [] end;
          c_trace := tr |}).
Proof.
  intros Hrl Hord.
  unfold _wrapped_func, call, put, print, c_lib, when, try_except,
    mbind, M_bind, mret, M_ret, child0, c_event; cbn.
  rewrite Hrl.
  destruct lq; cbn;
    [destruct (fails env install_queue_handler) as [[c a]|] eqn:E; cbn;
     [rewrite (Hord _ _ _ E); cbn|]|];
    destruct (outcome func) as [v|cls b| |]; cbn; rewrite ?orb_true_r; cbn;
    eexists; reflexivity.
Qed.





End ChildFacts.

(** ** The parent *)

Section ParentFacts.
Import Harness.
Variable env : Env.

Lemma errors_logged_app l1 l2 :
  errors_logged (l1 ++ l2) = errors_logged l1 ++ errors_logged l2.
Proof.
  induction l1 as [|ev l1 IH]; [reflexivity|].
  destruct ev as [| | | |[] ?| | | | |]; cbn; now rewrite ?IH.
Qed.

Lemma reads_queue_app l1 l2 :
  reads_queue (l1 ++ l2) = reads_queue l1 || reads_queue l2.
Proof.
  induction l1 as [|ev l1 IH]; [reflexivity|].
  destruct ev; cbn; now rewrite ?IH.
Qed.

Ltac run_parent :=
  unfold launch_and_join, receive, fresh, process_start, process_is_alive,
    process_terminate, process_join, queue_get, lib, log, assign_log_queue,
    assign_listener, read, when, try_except, raise, mbind, M_bind, mret, M_ret,
    event, set_proc; cbn.

(** The first half ends in the bounded wait for a child that was started
    on [_wrapped_func] with an empty result queue; nothing before that logs
    an error or reads the queue. *)
Lemma launch_and_join_started func ttl mode s :
  ordinary_failures env ->
  exists lq li pre,
    quiet pre /\
    launch_and_join env func ttl mode s
    = process_join (Some ttl)
        {| queue := []; proc := Running (child_run env func lq);
           log_queue := lq; listener := li; trace := (trace s ++ pre) ++ [Start] |}.
Proof.
  intros Hord. unfold launch_and_join, fresh, process_start, lib, log, assign_log_queue,
    assign_listener, when, try_except, mbind, M_bind, mret, M_ret, event, set_proc.
  destruct mode; cbn;
    try (exists false, false, []; split; [now split|]; now rewrite app_nil_r).
  destruct (fails env manager_queue) as [[c1 a1]|] eqn:E1; cbn.
  { rewrite (Hord _ _ _ E1). cbn. eexists false, false, [_; _]. split; [|now rewrite <- !app_assoc]. now split. }
  destruct (fails env queue_listener) as [[c2 a2]|] eqn:E2; cbn.
  { rewrite (Hord _ _ _ E2). cbn. eexists true, false, [_; _; _]. split; [|now rewrite <- !app_assoc]. now split. }
  destruct (fails env listener_start) as [[c3 a3]|] eqn:E3; cbn.
  { rewrite (Hord _ _ _ E3). cbn. eexists true, true, [_; _; _; _]. split; [|now rewrite <- !app_assoc]. now split. }
  destruct (fails env atexit_register) as [[c4 a4]|] eqn:E4; cbn.
  { rewrite (Hord _ _ _ E4). cbn. eexists true, true, [_; _; _; _; _]. split; [|now rewrite <- !app_assoc]. now split. }
  eexists true, true, [_; _; _; _]. split; [|now rewrite <- !app_assoc]. now split.
Qed.

(** A child that exits in time has exited when the bounded wait returns,
    and what it wrote is in the queue. *)
Lemma process_join_exited ttl q r lq li tr t :
  exit_after r = Some t -> (Z.of_N t <= ttl)%Z ->
  process_join (Some ttl)
    {| queue := q; proc := Running r; log_queue := lq; listener := li; trace := tr |}
  = (Ok tt, {| queue := q ++ writes r; proc := Exited; log_queue := lq; listener := li;
               trace := tr ++ [Join (Some ttl)] |}).
Proof.
  intros Ht Hle. unfold process_join, event, set_proc. cbn. rewrite Ht.
  destruct (Z.leb_spec (Z.of_N t) ttl); [reflexivity|lia].
Qed.

(** Stopping the listener never fails, logs no error and reads no queue. *)
Ltac stop_cases lq :=
  destruct lq; cbn;
  [destruct (fails env listener_stop) as [[? ?]|]; cbn;
   [|destruct (fails env atexit_unregister) as [[? ?]|]; cbn]|].

Lemma receive_exited func ttl x rest lq li tr :
  exists stop,
    errors_logged stop = [] /\
    receive env func ttl
      {| queue := Loaded x :: rest; proc := Exited; log_queue := lq; listener := li; trace := tr |}
    = (Ok x, {| queue := rest; proc := Exited; log_queue := lq; listener := li;
                trace := tr ++ stop ++ [IsAlive; Get] |}).
Proof.
  run_parent. stop_cases li.
  - exists [Lib listener_stop]. split; [reflexivity|]. now rewrite <- !app_assoc.
  - exists [Lib listener_stop; Lib atexit_unregister]. split; [reflexivity|].
    now rewrite <- !app_assoc.
  - exists [Lib listener_stop; Lib atexit_unregister]. split; [reflexivity|].
    now rewrite <- !app_assoc.
  - exists []. split; [reflexivity|]. now rewrite <- !app_assoc.
Qed.

Lemma receive_empty func ttl lq li tr :
  fst (receive env func ttl
         {| queue := []; proc := Exited; log_queue := lq; listener := li; trace := tr |})
  = Exn (PyExc Exception
      [PyStr ("Failed to get result from subprocess " +:+ func_name func
              +:+ "(*args=" +:+ py_str (PyTuple (args func))
              +:+ ",**kwargs=" +:+ repr_dict (keywords func) +:+ "): "
              +:+ py_str (PyExc Empty []))]).
Proof. run_parent. stop_cases li; reflexivity. Qed.

Lemma receive_alive func ttl q r lq li tr :
  exists stop,
    reads_queue stop = false /\
    receive env func ttl
      {| queue := q; proc := Running r; log_queue := lq; listener := li; trace := tr |}
    = (match exit_after r with
       | None => if stubborn r then Blocked else
           Exn (PyExc TimeoutError
             [PyStr ("Failed to " +:+ func_name func +:+ " after " +:+ pretty ttl +:+ " seconds")])
       | Some _ =>
           Exn (PyExc TimeoutError
             [PyStr ("Failed to " +:+ func_name func +:+ " after " +:+ pretty ttl +:+ " seconds")])
       end,
       {| queue := match exit_after r with
                   | None => q
                   | Some _ => if stubborn r then q ++ writes r else q
                   end;
          proc := match exit_after r with
                  | None => if stubborn r then Signalled r else Exited
                  | Some _ => Exited
                  end;
          log_queue := lq; listener := li;
          trace := tr ++ stop ++ [IsAlive; Terminate; Join None] |}).
Proof.
  run_parent. stop_cases li.
  1: exists [Lib listener_stop].
  2, 3: exists [Lib listener_stop; Lib atexit_unregister].
  4: exists [].
  all: split; [reflexivity|].
  all: destruct (stubborn r), (exit_after r); cbn; now rewrite <- ?app_assoc.
Qed.


Lemma not_BaseException_not_Exception v :
  is_BaseException v = false -> is_Exception v = false.
Proof. destruct v; cbn; congruence. Qed.

End ParentFacts.

(** ** The retry wrapper: attempts, waits and the last error *)

Section RetryClaims.
Import Retry.
Context {W : Type}.
Variable func : M W PyVal.
Variables max_retries delay_seconds : Z.

(** C4.  [run_with_retry] calls the work at the attempts 1, 2, ... up to
    [max_retries].  Take an attempt [k + 1 <= max_retries] that is reached
    because the [k] attempts before it each raised an ordinary error (the
    wait length is not negative if there were any).  Every one of those was
    followed by a wait of [delay_seconds] and the next attempt.  If attempt [k + 1] succeeds, its value is returned at once: the
    call of the work is the last step, with no wait and no attempt after it.
    If it raises an ordinary error and is attempt [max_retries], that very
    error is raised at once, and the work has been called exactly
    [max_retries] times. *)
Theorem run_with_retry_attempts (k : nat) (w w1 : W) (tr : list Step) :
  (Z.of_nat k < max_retries)%Z ->
  (k = 0%nat \/ 0 <= delay_seconds)%Z ->
  failures func k w = Some w1 ->
  (forall v w2, func w1 = (Ok v, w2) ->
     run_with_retry func max_retries delay_seconds {| work := w; steps := tr |}
     = (Ok v, {| work := w2; steps := tr ++ rounds delay_seconds k ++ [Invoke] |}))
  /\
  (forall e w2, func w1 = (Exn e, w2) -> is_Exception e = true ->
     (Z.of_nat k + 1 = max_retries)%Z ->
     run_with_retry func max_retries delay_seconds {| work := w; steps := tr |}
     = (Exn e, {| work := w2; steps := tr ++ rounds delay_seconds k ++ [Invoke] |})
     /\ invocations (rounds delay_seconds k ++ [Invoke]) = Z.to_nat max_retries).
Proof.
  intros Hk Hd Hf.
  assert (Hloop := loop_failures func max_retries delay_seconds k 1 w tr w1
                     ltac:(lia) Hd Hf).
  split.
  - intros v w2 Hv. rewrite run_with_retry_unfold, Hloop.
    rewrite (range_cons (1 + Z.of_nat k)) by lia. cbn [for_in].
    unfold try_except, mbind, M_bind, invoke. cbn. rewrite Hv.
    now rewrite <- app_assoc.
  - intros e w2 He Hexc Hlast. split.
    + rewrite run_with_retry_unfold, Hloop.
      rewrite (range_cons (1 + Z.of_nat k)) by lia. cbn [for_in].
      unfold try_except, mbind, M_bind, invoke. cbn. rewrite He, Hexc.
      destruct (Z.eqb_spec (1 + Z.of_nat k) max_retries) as [_|]; [|lia].
      now rewrite <- app_assoc.
    + rewrite invocations_app, invocations_rounds. cbn. lia.
Qed.

(** C10.  With [max_retries <= 0] the loop has no round: the work is not
    called (its state and the steps taken are as before), and the call
    raises the generic "Unexpected state" error, not an error of the
    work. *)
Theorem run_with_retry_no_attempt (s : St W) :
  (max_retries <= 0)%Z ->
  run_with_retry func max_retries delay_seconds s
  = (Exn (PyExc Exception
            [PyStr "Unexpected state: Ran with retry but didn't hit a terminal state"]),
     s).
Proof.
  intros H. rewrite run_with_retry_unfold, range_empty by lia. reflexivity.
Qed.

End RetryClaims.

Lemma run_with_retry_attempts_witness :
  Retry.run_with_retry Samples.flaky 3 0 {| Retry.work := 0%nat; Retry.steps := [] |}
  = (Ok (PyInt 2),
     {| Retry.work := 3%nat;
        Retry.steps := [Retry.Invoke; Retry.Sleep 0; Retry.Invoke; Retry.Sleep 0;
                        Retry.Invoke] |}).
Proof.
  apply (proj1 (run_with_retry_attempts Samples.flaky 3 0 2 0%nat 2%nat []
                  ltac:(lia) ltac:(lia) eq_refl) (PyInt 2) 3%nat).
  reflexivity.
Defined.

Lemma run_with_retry_no_attempt_witness :
  Retry.run_with_retry Samples.flaky 0 1 (Retry.st0 0%nat)
  = (Exn (PyExc Exception
            [PyStr "Unexpected state: Ran with retry but didn't hit a terminal state"]),
     Retry.st0 0%nat).
Proof.
  apply (run_with_retry_no_attempt Samples.flaky 0 1 (Retry.st0 0%nat)). lia.
Defined.

(** ** The harness: what [run_in_subprocess] hands back *)

Section HarnessClaims.
Import Harness.
Variable env : Env.
Variable func : partial.
Variable ttl : Z.
Variable mode : StartMethod.
Variable expected_errors : gset string.

(** The first half does not read the result queue, however it ends. *)
Lemma launch_and_join_reads_nothing (s : Sys) :
  exists pre,
    trace (snd (launch_and_join env func ttl mode s)) = trace s ++ pre
    /\ reads_queue pre = false.
Proof.
  unfold launch_and_join, fresh, process_start, process_join, lib, log, assign_log_queue,
    assign_listener, when, try_except, mbind, M_bind, mret, M_ret, event, set_proc.
  destruct mode; cbn;
    repeat match goal with
           | |- context [fails env ?c] => destruct (fails env c) as [[? ?]|]; cbn
           | |- context [derives_Exception ?c] => destruct (derives_Exception c); cbn
           | |- context [exit_after ?r] => destruct (exit_after r); cbn
           | |- context [(?a <=? ?b)%Z] => destruct (a <=? b)%Z; cbn
           end;
    rewrite <- ?app_assoc; cbn; eexists; (split; [reflexivity|reflexivity]).
Qed.



(** C2.  When the child is still alive as the bounded wait of [ttl]
    seconds returns, [run_in_subprocess] sends the termination signal and
    then waits with no bound for the child to exit: these are its last two
    steps, and no step of the call reads the result queue.  The wait ends if the child
    dies of the signal or ends on its own, and the call then fails with a
    [TimeoutError] that names the unit of work and [ttl]; if the child does
    neither, the call never returns. *)
Theorem run_in_subprocess_timeout (s s' : Sys) (r : ChildRun) :
  launch_and_join env func ttl mode s = (Ok tt, s') ->
  proc s' = Running r ->
  let out := run_in_subprocess env func ttl mode expected_errors s in
  (exists steps,
      trace (snd out) = trace s ++ steps ++ [Terminate; Join None]
      /\ reads_queue steps = false)
  /\ fst out
     = (if stubborn r && bool_decide (exit_after r = None)
        then Blocked
        else Exn (PyExc TimeoutError
               [PyStr ("Failed to " +:+ func_name func +:+ " after " +:+ pretty ttl
                       +:+ " seconds")])).
Proof.
  intros Hl Hp out. subst out.
  destruct (launch_and_join_reads_nothing s) as (pre & Hpre & Hnp).
  rewrite Hl in Hpre. cbn [snd] in Hpre.
  unfold run_in_subprocess, collect. erewrite bind_Ok by exact Hl.
  destruct s' as [q p lq li tr]. cbn in Hp, Hpre. subst p tr.
  destruct (receive_alive env func ttl q r lq li (trace s ++ pre)) as (stop & Hs & Hr).
  destruct (exit_after r) as [t|], (stubborn r);
    (erewrite bind_Exn by exact Hr) || (erewrite bind_Blocked by exact Hr);
    cbn; (split; [exists (pre ++ stop ++ [IsAlive]); split|reflexivity]);
    rewrite <- ?app_assoc; try reflexivity;
    rewrite !reads_queue_app, Hnp, Hs; reflexivity.
Qed.

(** C7.  When the child has exited as the bounded wait returns and the
    result queue is empty, [run_in_subprocess] fails (it returns nothing)
    with an [Exception] whose message names the unit of work, renders its
    positional and keyword arguments, and ends with the text of the error
    of the failed read, [queue.Empty]. *)
Theorem run_in_subprocess_missing_envelope (s s' : Sys) :
  launch_and_join env func ttl mode s = (Ok tt, s') ->
  proc s' = Exited ->
  queue s' = [] ->
  fst (run_in_subprocess env func ttl mode expected_errors s)
  = Exn (PyExc Exception
      [PyStr ("Failed to get result from subprocess " +:+ func_name func
              +:+ "(*args=" +:+ py_str (PyTuple (args func))
              +:+ ",**kwargs=" +:+ repr_dict (keywords func) +:+ "): "
              +:+ py_str (PyExc Empty []))]).
Proof.
  intros Hl Hp Hq.
  unfold run_in_subprocess, collect. erewrite bind_Ok by exact Hl.
  destruct s' as [q p lq li tr]. cbn in Hp, Hq. subst p q.
  assert (Hr := receive_empty env func ttl lq li tr).
  unfold mbind, M_bind.
  destruct (receive env func ttl _) as [[x|e| |] s2]; cbn in Hr; try discriminate.
  cbn. exact Hr.
Qed.

End HarnessClaims.

(** ** The harness: envelopes as [collect] reads them *)

Section EnvelopeClaims.
Import Harness.
Variable env : Env.
Variable func : partial.
Variable ttl : Z.
Variable expected_errors : gset string.

(** The second half on a child that has exited with [x] first in the
    queue: [x] is read and interpreted. *)
Lemma collect_exited (s : Sys) (x : PyVal) (rest : list Item) :
  proc s = Exited -> queue s = Loaded x :: rest ->
  exists s3,
    errors_logged (trace s3) = errors_logged (trace s) /\
    collect env func ttl expected_errors s = interpret expected_errors x s3.
Proof.
  intros Hp Hq. destruct s as [q p lq li tr]. cbn in Hp, Hq. subst p q.
  destruct (receive_exited env func ttl x rest lq li tr) as (stop & Hs & Hr).
  eexists. split; [|unfold collect; erewrite bind_Ok by exact Hr; reflexivity].
  cbn [trace]. rewrite !errors_logged_app, Hs. cbn. now rewrite app_nil_r.
Qed.

(** C6 (amended).  Every envelope read from the child that is not a tuple
    makes [run_in_subprocess] fail with the generic [Exception] "Unexpected
    result from subprocess", which names the type and the value read;
    nothing of the envelope is returned or re-raised. *)
Theorem collect_rejects_non_tuple (s : Sys) (x : PyVal) (rest : list Item) :
  proc s = Exited -> queue s = Loaded x :: rest ->
  is_tuple x = false ->
  fst (collect env func ttl expected_errors s)
  = Exn (PyExc Exception
      [PyStr ("Unexpected result from subprocess, type " +:+ type_repr x
              +:+ ": " +:+ py_str x)]).
Proof.
  intros Hp Hq Hx.
  destruct (collect_exited s x rest Hp Hq) as (s3 & _ & ->).
  destruct x; try discriminate Hx; reflexivity.
Qed.

(** C8.  For every failure envelope whose error is an instance of a class
    that does not derive from [Exception], [run_in_subprocess] logs the
    trace at error severity, whatever [expected_errors] holds, and then
    raises an [Exception] (not the class of the original error) whose
    message carries the [str] of the original error. *)
Theorem collect_wraps_BaseException (s : Sys) (cls : ExcClass) (a : list PyVal)
    (tb : PyVal) (rest : list Item) :
  proc s = Exited -> queue s = Loaded (PyTuple [PyExc cls a; tb]) :: rest ->
  derives_Exception cls = false ->
  let out := collect env func ttl expected_errors s in
  fst out = Exn (PyExc Exception
              [PyStr ("BaseException raised in subprocess: " +:+ py_str (PyExc cls a))])
  /\ errors_logged (trace (snd out))
     = errors_logged (trace s) ++ ["BaseException in subprocess:" +:+ LF +:+ py_str tb]
  /\ cls <> Exception.
Proof.
  intros Hp Hq Hc out. subst out.
  destruct (collect_exited s _ rest Hp Hq) as (s3 & Hlog & ->).
  unfold interpret, item, log, raise, mbind, M_bind, mret, M_ret. cbn.
  rewrite Hc. cbn. rewrite errors_logged_app, Hlog.
  repeat split. intros ->. discriminate Hc.
Qed.

End EnvelopeClaims.

(** ** The child entry point and the limit on open files *)

Section ChildClaims.
Import Harness.

(** When [resource.setrlimit] raises, the error leaves [_wrapped_func]: the
    call sits before the [try], so the work is not called and nothing is
    put on the result queue. *)
Lemma _wrapped_func_setrlimit_raises env func lq c cls a :
  fails env setrlimit = Some (cls, a) ->
  _wrapped_func env func lq c = (Exn (PyExc cls a), c_event (Lib setrlimit) c).
Proof.
  intros H. unfold _wrapped_func, c_lib, mbind, M_bind. now rewrite H.
Qed.

End ChildClaims.

(** ** The claims at sample inputs *)

Section Samples.
Import Harness Samples.

(** C5, at a child that may not raise its limit on open files.  The
    [ValueError] of [setrlimit] leaves the child entry point: the work is
    never called, no envelope is written, and the parent reports the
    missing envelope instead of the work's value 7. *)
Theorem setrlimit_failure_loses_envelope :
  _wrapped_func env_low_limit (work (Return (PyInt 7)) 2) false child0
  = (Exn (PyExc ValueError [PyStr "not allowed to raise maximum limit"]),
     {| c_clock := 0; c_queue := []; c_trace := [Lib setrlimit] |})
  /\ fst (run_in_subprocess env_low_limit (work (Return (PyInt 7)) 2) 10 fork ∅ sys0)
     = Exn (PyExc Exception
         [PyStr "Failed to get result from subprocess work(*args=(1, 'a'),**kwargs={'k': None}): "]).
Proof. split; vm_compute; reflexivity. Qed.



(** C9, at the default [expected_errors].  The work returns the value
    [ValueError('boom')] after one second of ten.  The parent takes the
    one-item envelope for a failure and goes on to raise the value (line
    152), but building the message for the log first reads the second item
    of the envelope (line 151), which is not there: an [IndexError] is
    raised, not the returned value. *)
Theorem returned_exception_raises_IndexError :
  outcome (work (Return boom) 1) = Return boom
  /\ is_Exception boom = true
  /\ (Z.of_N (seconds (work (Return boom) 1)) <= 10)%Z
  /\ fst (run_in_subprocess env_ok (work (Return boom) 1) 10 fork ∅ sys0)
     = Exn (PyExc IndexError [PyStr "tuple index out of range"])
  /\ fst (run_in_subprocess env_ok (work (Return boom) 1) 10 fork ∅ sys0)
     <> Exn boom.
Proof.
  split; [reflexivity|]. split; [reflexivity|]. split; [cbn; lia|].
  split; [vm_compute; reflexivity|vm_compute; discriminate].
Qed.

(** C6 fails for a tuple of three items: it is neither a [Success] nor a
    [Failure] envelope, and its first item is returned. *)
Lemma three_item_tuple_is_accepted :
  Envelope.recognised (PyTuple [PyInt 1; PyInt 2; PyInt 3]) = false
  /\ fst (collect env_ok (work Exit 0) 10 ∅ (exited [PyTuple [PyInt 1; PyInt 2; PyInt 3]]))
     = Ok (PyInt 1).
Proof. split; vm_compute; reflexivity. Qed.



Lemma run_in_subprocess_timeout_witness :
  fst (run_in_subprocess env_ok (work (Return (PyInt 7)) 20) 10 fork ∅ sys0)
  = Exn (PyExc TimeoutError [PyStr "Failed to work after 10 seconds"]).
Proof.
  refine (proj2 (run_in_subprocess_timeout env_ok (work (Return (PyInt 7)) 20) 10 fork ∅
                   sys0
                   {| queue := []; proc := Running (child_run env_ok (work (Return (PyInt 7)) 20) false);
                      log_queue := false; listener := false;
                      trace := [Start; Join (Some 10)] |}
                   (child_run env_ok (work (Return (PyInt 7)) 20) false) _ _)).
  - vm_compute. reflexivity.
  - reflexivity.
Defined.

Lemma run_in_subprocess_missing_envelope_witness :
  fst (run_in_subprocess env_ok (work Exit 2) 10 fork ∅ sys0)
  = Exn (PyExc Exception
      [PyStr "Failed to get result from subprocess work(*args=(1, 'a'),**kwargs={'k': None}): "]).
Proof.
  refine (run_in_subprocess_missing_envelope env_ok (work Exit 2) 10 fork ∅ sys0
            (exited []) _ _ _).
  - vm_compute. reflexivity.
  - reflexivity.
  - reflexivity.
Defined.

Lemma collect_rejects_non_tuple_witness :
  fst (collect env_ok (work Exit 0) 10 ∅ (exited [PyInt 3]))
  = Exn (PyExc Exception [PyStr "Unexpected result from subprocess, type <class 'int'>: 3"]).
Proof.
  refine (collect_rejects_non_tuple env_ok (work Exit 0) 10 ∅ (exited [PyInt 3])
            (PyInt 3) [] _ _ _); reflexivity.
Defined.

Lemma collect_wraps_BaseException_witness :
  fst (collect env_ok (work Exit 0) 10 {["KeyboardInterrupt"]}
         (exited [PyTuple [PyExc KeyboardInterrupt []; PyStr "interrupted"]]))
  = Exn (PyExc Exception [PyStr "BaseException raised in subprocess: "])
  /\ errors_logged
       (trace (snd (collect env_ok (work Exit 0) 10 {["KeyboardInterrupt"]}
                      (exited [PyTuple [PyExc KeyboardInterrupt []; PyStr "interrupted"]]))))
     = ["BaseException in subprocess:" +:+ LF +:+ "interrupted"]
  /\ KeyboardInterrupt <> Exception.
Proof.
  refine (collect_wraps_BaseException env_ok (work Exit 0) 10 {["KeyboardInterrupt"]}
            (exited [PyTuple [PyExc KeyboardInterrupt []; PyStr "interrupted"]])
            KeyboardInterrupt [] (PyStr "interrupted") [] _ _ _); reflexivity.
Defined.

End Samples.

(** ** Registration *)

Section RegistryFacts.
Import Registry.

Lemma list_contains_In x l : list_contains x l = true <-> In x l.
Proof.
  induction l as [|y r IH]; cbn; [intuition discriminate|].
  destruct (String.eqb_spec y x) as [->|Hne]; [tauto|].
  rewrite IH. split; [tauto|]. intros [Heq|Hin]; [contradiction|exact Hin].
Qed.

Lemma list_index_first x l :
  In x l ->
  exists i, list_index x l = Some i
    /\ nth_error l i = Some x
    /\ forall j, (j < i)%nat -> nth_error l j <> Some x.
Proof.
  induction l as [|y r IH]; intros Hin; [destruct Hin|]. cbn.
  destruct (String.eqb_spec y x) as [->|Hne].
  - exists 0%nat. repeat split. intros j Hj. lia.
  - destruct Hin as [Heq|Hin]; [contradiction|].
    destruct (IH Hin) as (i & -> & Hnth & Hmin).
    exists (Datatypes.S i). repeat split; [exact Hnth|].
    intros [|j] Hj; cbn; [congruence|]. apply Hmin. lia.
Qed.

(** X1.  For a wallet whose hotkey address is among the hotkeys of the
    metagraph, [assert_registered] returns the position of the first
    occurrence of the address, and logs the success message once, with the
    address and that position. *)
Theorem assert_registered_first_uid {F} (wallet : Bt.wallet) (metagraph : Bt.metagraph F)
    (logged : list string) :
  In (Bt.hotkey_ss58_address wallet) (Bt.hotkeys metagraph) ->
  exists uid,
    assert_registered wallet metagraph logged
    = (Ok uid,
       logged ++ ["You are registered with address: " +:+ Bt.hotkey_ss58_address wallet
                  +:+ " and uid: " +:+ pretty uid])
    /\ nth_error (Bt.hotkeys metagraph) uid = Some (Bt.hotkey_ss58_address wallet)
    /\ forall j, (j < uid)%nat ->
         nth_error (Bt.hotkeys metagraph) j <> Some (Bt.hotkey_ss58_address wallet).
Proof.
  intros Hin. unfold assert_registered.
  rewrite (proj2 (list_contains_In _ _) Hin). cbn [negb].
  destruct (list_index_first _ _ Hin) as (uid & -> & Hnth & Hmin).
  exists uid. repeat split; auto.
Qed.

(** X2.  [assert_registered] fails exactly when the address is not among
    the hotkeys; it then raises a [ValueError] and logs nothing. *)
Theorem assert_registered_unregistered {F} (wallet : Bt.wallet) (metagraph : Bt.metagraph F)
    (logged : list string) :
  (exists a, assert_registered wallet metagraph logged = (Exn (PyExc ValueError a), logged))
  <-> ~ In (Bt.hotkey_ss58_address wallet) (Bt.hotkeys metagraph).
Proof.
  unfold assert_registered.
  destruct (list_contains _ _) eqn:Hc; cbn [negb].
  - apply list_contains_In in Hc.
    destruct (list_index_first _ _ Hc) as (uid & -> & _).
    split; [|contradiction]. intros [a Ha]. discriminate Ha.
  - split; [|cbn; eauto]. intros _ Hin.
    apply list_contains_In in Hin. congruence.
Qed.

End RegistryFacts.

(** ** Repository ids *)

Section HfRepoFacts.
Import HfRepo.

Lemma append_nil_l (s : string) : "" +:+ s = s.
Proof. reflexivity. Qed.

Lemma append_cons_l (c : ascii) (r s : string) : String c r +:+ s = String c (r +:+ s).
Proof. reflexivity. Qed.

Lemma append_assoc_l (a b c : string) : (a +:+ b) +:+ c = a +:+ (b +:+ c).
Proof.
  induction a as [|ch r IH]; [reflexivity|].
  now rewrite !append_cons_l, IH.
Qed.

Lemma split_nonempty sep s : split sep s <> [].
Proof.
  destruct s as [|c r]; cbn; [discriminate|].
  destruct (Ascii.eqb c sep); [discriminate|].
  destruct (split sep r); discriminate.
Qed.

(** The pieces hold no separator. *)
Lemma split_pieces sep s p : In p (split sep s) -> contains_char sep p = false.
Proof.
  revert p. induction s as [|c r IH]; cbn; intros p Hin.
  - destruct Hin as [<-|[]]. reflexivity.
  - destruct (Ascii.eqb_spec c sep) as [->|Hne].
    + destruct Hin as [<-|Hin]; [reflexivity|auto].
    + destruct (split sep r) as [|q qs] eqn:Hs; [destruct (split_nonempty _ _ Hs)|].
      destruct Hin as [<-|Hin].
      * cbn. destruct (Ascii.eqb_spec sep c) as [->|_]; [contradiction|].
        apply IH. now left.
      * apply IH. now right.
Qed.

Lemma split_one sep s a : split sep s = [a] -> s = a.
Proof.
  revert a. induction s as [|c r IH]; cbn; intros a Hs; [injection Hs as <-; reflexivity|].
  destruct (Ascii.eqb c sep);
    [injection Hs as _ Hr; destruct (split_nonempty _ _ Hr)|].
  destruct (split sep r) as [|q qs] eqn:Hq; [destruct (split_nonempty _ _ Hq)|].
  injection Hs as <- ->. f_equal. now apply IH.
Qed.

(** Two pieces come from exactly one separator, between them. *)
Lemma split_two sep s a b :
  split sep s = [a; b] -> s = a +:+ String sep b.
Proof.
  revert a. induction s as [|c r IH]; cbn; intros a Hs; [discriminate|].
  destruct (Ascii.eqb_spec c sep) as [->|Hne].
  - injection Hs as <- Hr. rewrite append_nil_l. f_equal. now apply split_one in Hr.
  - destruct (split sep r) as [|q qs] eqn:Hq; [destruct (split_nonempty _ _ Hq)|].
    injection Hs as <- ->. rewrite append_cons_l. f_equal. now apply IH.
Qed.

Lemma split_no_sep sep s : contains_char sep s = false -> split sep s = [s].
Proof.
  induction s as [|c r IH]; cbn; [reflexivity|]. intros H.
  destruct (Ascii.eqb_spec sep c) as [->|Hne]; [discriminate|].
  destruct (Ascii.eqb_spec c sep) as [->|_]; [contradiction|].
  now rewrite IH.
Qed.

Lemma split_at_sep sep a b :
  contains_char sep a = false ->
  split sep (a +:+ String sep b) = a :: split sep b.
Proof.
  induction a as [|c r IH]; intros H.
  - rewrite append_nil_l. cbn. now rewrite Ascii.eqb_refl.
  - rewrite append_cons_l. cbn in H |- *.
    destruct (Ascii.eqb_spec sep c) as [->|Hne]; [discriminate|].
    destruct (Ascii.eqb_spec c sep) as [->|_]; [contradiction|].
    now rewrite (IH H).
Qed.

(** X3.  [validate_hf_repo_id] accepts exactly the ids that have more
    than 3 characters, not more than [MAX_REPO_ID_LENGTH], and are made of
    two pieces without a slash, with one slash between them; it then
    returns the two pieces, either of which may be empty.  The length is
    counted in characters, not in bytes. *)
Theorem validate_hf_repo_id_accepts {W} (MAX_REPO_ID_LENGTH : Z) (repo_id : string)
    (w : W) (namespace name : string) :
  validate_hf_repo_id MAX_REPO_ID_LENGTH repo_id w = (Ok (namespace, name), w)
  <-> repo_id = namespace +:+ "/" +:+ name
      /\ contains_char "/" namespace = false
      /\ contains_char "/" name = false
      /\ (3 < Z.of_nat (py_len repo_id) <= MAX_REPO_ID_LENGTH)%Z.
Proof.
  unfold validate_hf_repo_id. split.
  - destruct (String.eqb repo_id ""); [discriminate|].
    destruct (Z.ltb_spec 3 (Z.of_nat (py_len repo_id))); [|discriminate].
    destruct (Z.leb_spec (Z.of_nat (py_len repo_id)) MAX_REPO_ID_LENGTH);
      [|discriminate]. cbn [andb negb].
    destruct (split "/" repo_id) as [|p [|q [|? ?]]] eqn:Hs; try discriminate.
    intros Heq. injection Heq as -> ->.
    split; [now apply split_two|].
    split; [apply (split_pieces "/" repo_id); rewrite Hs; now left|].
    split; [apply (split_pieces "/" repo_id); rewrite Hs; right; now left|lia].
  - intros (-> & Hns & Hn & Hlen).
    destruct (String.eqb_spec (namespace +:+ "/" +:+ name) "") as [He|_].
    { rewrite He in Hlen. cbn in Hlen. lia. }
    destruct (Z.ltb_spec 3 (Z.of_nat (py_len (namespace +:+ "/" +:+ name)))); [|lia].
    destruct (Z.leb_spec (Z.of_nat (py_len (namespace +:+ "/" +:+ name)))
                MAX_REPO_ID_LENGTH); [|lia]. cbn [andb negb].
    change (namespace +:+ "/" +:+ name) with (namespace +:+ String "/" name).
    now rewrite (split_at_sep "/" namespace name Hns), (split_no_sep "/" name Hn).
Qed.

(** X4.  The URL of a model whose namespace and name are the two pieces
    of a validated repository id holds that id unchanged, between the
    host and [/tree/<commit>]. *)
Theorem get_hf_url_of_validated {W} (MAX_REPO_ID_LENGTH : Z) (repo_id : string) (w : W)
    (ns nm c : string) :
  validate_hf_repo_id MAX_REPO_ID_LENGTH repo_id w = (Ok (ns, nm), w) ->
  get_hf_url {| id := {| namespace := ns; name := nm; commit := c |} |}
  = "https://huggingface.co/" +:+ repo_id +:+ "/tree/" +:+ c.
Proof.
  unfold validate_hf_repo_id.
  destruct (String.eqb repo_id ""); [discriminate|].
  destruct (negb _); [discriminate|].
  destruct (split "/" repo_id) as [|p [|q [|? ?]]] eqn:Hs; try discriminate.
  intros Heq. injection Heq as -> ->.
  rewrite (split_two "/" repo_id ns nm Hs). unfold get_hf_url.
  cbn [id namespace name commit].
  change (ns +:+ "/" +:+ nm +:+ "/tree/" +:+ c)
    with (ns +:+ String "/" nm +:+ "/tree/" +:+ c).
  now rewrite !append_assoc_l.
Qed.

End HfRepoFacts.

(** ** The top validators *)

Section SortFacts.
Import Valis.
Context {A : Type}.
Variable lt : A -> A -> bool.

Lemma insert_desc_Permutation x l : Permutation (insert_desc lt x l) (x :: l).
Proof.
  induction l as [|y r IH]; cbn; [reflexivity|].
  destruct (lt x y); [|reflexivity].
  rewrite IH. apply perm_swap.
Qed.

Lemma sorted_reverse_Permutation l : Permutation (sorted_reverse lt l) l.
Proof.
  induction l as [|x r IH]; cbn; [reflexivity|].
  unfold sorted_reverse in IH. now rewrite insert_desc_Permutation, IH.
Qed.

(** The comparison is a strict weak order. *)
Hypothesis lt_asym : forall x y, lt x y = true -> lt y x = false.
Hypothesis lt_nontrans : forall x y z, lt x y = false -> lt y z = false -> lt x z = false.

Lemma insert_desc_sorted x l :
  StronglySorted (fun a b => lt a b = false) l ->
  StronglySorted (fun a b => lt a b = false) (insert_desc lt x l).
Proof.
  induction 1 as [|y r Hs IH Hall]; cbn; [repeat constructor|].
  destruct (lt x y) eqn:Hxy.
  - constructor; [exact IH|].
    apply List.Forall_forall. intros z Hz.
    apply (Permutation_in _ (insert_desc_Permutation x r)) in Hz.
    destruct Hz as [<-|Hz]; [now apply lt_asym|].
    rewrite List.Forall_forall in Hall. now apply Hall.
  - constructor; [now constructor|].
    constructor; [exact Hxy|].
    rewrite List.Forall_forall in Hall |- *. intros z Hz.
    apply (lt_nontrans x y z Hxy). now apply Hall.
Qed.

Lemma sorted_reverse_sorted l :
  StronglySorted (fun a b => lt a b = false) (sorted_reverse lt l).
Proof.
  induction l as [|x r IH]; cbn; [constructor|]. now apply insert_desc_sorted.
Qed.

End SortFacts.

Section ValisFacts.
Import Bt Valis.
Context {F : Type} `{Float F}.

Lemma enumerate_from_In {B} (l : list B) k i x :
  In (i, x) (combine (seq k (length l)) l)
  <-> (k <= i)%nat /\ nth_error l (i - k) = Some x.
Proof.
  revert k. induction l as [|y r IH]; intros k; cbn.
  - split; [tauto|]. intros [_ Hn]. destruct (i - k)%nat; discriminate.
  - rewrite IH. split.
    + intros [Heq|[Hle Hn]].
      * injection Heq as -> ->. split; [lia|]. now rewrite Nat.sub_diag.
      * split; [lia|]. replace (i - k)%nat with (Datatypes.S (i - Datatypes.S k)) by lia.
        exact Hn.
    + intros [Hle Hn]. destruct (Nat.eq_dec i k) as [->|Hne].
      * left. rewrite Nat.sub_diag in Hn. cbn in Hn. congruence.
      * right. split; [lia|].
        replace (i - k)%nat with (Datatypes.S (i - Datatypes.S k)) in Hn by lia. exact Hn.
Qed.

Lemma enumerate_In {B} (l : list B) i x :
  In (i, x) (enumerate l) <-> nth_error l i = Some x.
Proof.
  unfold enumerate. rewrite enumerate_from_In, Nat.sub_0_r. split; [tauto|].
  intros Hn. split; [lia|exact Hn].
Qed.

Lemma enumerate_fst {B} (l : list B) : map fst (enumerate l) = seq 0 (length l).
Proof.
  unfold enumerate. generalize 0%nat.
  induction l as [|y r IH]; intros k; cbn; [reflexivity|]. now rewrite IH.
Qed.

Lemma enumerate_snd {B} (l : list B) : map snd (enumerate l) = l.
Proof.
  unfold enumerate. generalize 0%nat.
  induction l as [|y r IH]; intros k; cbn; [reflexivity|]. now rewrite IH.
Qed.

(** The loop appends the permitted entries when every uid has an entry in
    [validator_permit], and raises at the first uid that has none. *)
Lemma collect_valis_spec {W} (permit : list bool) (entries : list (nat * F))
    (valis : list (F * nat)) (w : W) :
  (Forall (fun us => (fst us < length permit)%nat) entries
   /\ collect_valis permit entries valis w
      = (Ok (valis ++ map (fun us => (snd us, fst us))
                          (filter (fun us => nth_error permit (fst us) = Some true) entries)),
         w))
  \/ (Exists (fun us => (length permit <= fst us)%nat) entries
      /\ collect_valis permit entries valis w
         = (Exn (PyExc IndexError [PyStr "list index out of range"]), w)).
Proof.
  revert valis. induction entries as [|[uid stake] rest IH]; intros valis;
    cbn [collect_valis].
  - left. split; [constructor|]. cbn. now rewrite app_nil_r.
  - destruct (nth_error permit uid) as [b|] eqn:Hn.
    + assert (Hlt : (uid < length permit)%nat).
      { apply nth_error_Some. congruence. }
      destruct b.
      * destruct (IH (valis ++ [(stake, uid)])) as [[Hall ->]|[Hex ->]].
        -- left. split; [now constructor|].
           rewrite filter_cons_True by exact Hn. cbn [map fst snd].
           now rewrite <- app_assoc.
        -- right. split; [now apply Exists_cons_tl|reflexivity].
      * destruct (IH valis) as [[Hall ->]|[Hex ->]].
        -- left. split; [now constructor|].
           rewrite filter_cons_False by (cbn; congruence). reflexivity.
        -- right. split; [now apply Exists_cons_tl|reflexivity].
    + right. split; [|reflexivity].
      apply Exists_cons_hd. cbn. now apply nth_error_None.
Qed.

(** [get_top_valis] either sorts and cuts the validators, or raises the
    [IndexError] of [validator_permit[uid]]. *)
Lemma get_top_valis_spec {W} (m : metagraph F) (n : Z) (w : W) :
  ((length (S m) <= length (validator_permit m))%nat
   /\ get_top_valis m n w
      = (Ok (map snd (slice_to n (sorted_reverse tuple_lt (validators m)))), w))
  \/ ((length (validator_permit m) < length (S m))%nat
      /\ get_top_valis m n w
         = (Exn (PyExc IndexError [PyStr "list index out of range"]), w)).
Proof.
  unfold get_top_valis.
  destruct (collect_valis_spec (validator_permit m) (enumerate (S m)) [] w)
    as [[Hall Hc]|[Hex Hc]].
  - left. split.
    + destruct (le_lt_dec (length (S m)) (length (validator_permit m))) as [|Hlt]; [assumption|].
      destruct (nth_error (S m) (length (validator_permit m))) as [s|] eqn:Hn;
        [|apply nth_error_None in Hn; lia].
      apply enumerate_In in Hn. rewrite List.Forall_forall in Hall.
      specialize (Hall _ Hn). cbn in Hall. lia.
    + erewrite bind_Ok by exact Hc. reflexivity.
  - right. split.
    + apply List.Exists_exists in Hex. destruct Hex as ([uid s] & Hin & Hle). cbn in Hle.
      apply enumerate_In in Hin.
      assert (uid < length (S m))%nat by (apply nth_error_Some; congruence). lia.
    + erewrite bind_Exn by exact Hc. reflexivity.
Qed.

Lemma validators_In (m : metagraph F) s u :
  In (s, u) (validators m)
  <-> nth_error (S m) u = Some s /\ nth_error (validator_permit m) u = Some true.
Proof.
  unfold validators. rewrite in_map_iff. split.
  - intros ([u' s'] & Heq & Hin). cbn in Heq. injection Heq as -> ->.
    apply list_elem_of_In, list_elem_of_filter in Hin. destruct Hin as [Hp Hin].
    apply list_elem_of_In, enumerate_In in Hin. now split.
  - intros [Hs Hp]. exists (u, s). split; [reflexivity|].
    apply list_elem_of_In, list_elem_of_filter. split; [exact Hp|].
    now apply list_elem_of_In, enumerate_In.
Qed.

Lemma validators_NoDup (m : metagraph F) : NoDup (map snd (validators m)).
Proof.
  unfold validators. rewrite map_map. cbn.
  apply (NoDup_fmap_fst (filter _ (enumerate (S m)))).
  - intros u s1 s2 H1 H2.
    apply list_elem_of_filter in H1, H2. destruct H1 as [_ H1], H2 as [_ H2].
    apply list_elem_of_In, enumerate_In in H1, H2. congruence.
  - apply NoDup_filter. apply (NoDup_fmap_1 fst).
    change (NoDup (map fst (enumerate (S m)))). rewrite enumerate_fst.
    apply NoDup_ListNoDup, seq_NoDup.
Qed.

Lemma slice_to_prefix {B} (n : Z) (l : list B) :
  exists k, slice_to n l = take k l
    /\ k = (if (n <? 0)%Z then Z.to_nat (Z.max 0 (Z.of_nat (length l) + n))
            else Z.to_nat n).
Proof. unfold slice_to. destruct (n <? 0)%Z; eauto. Qed.

Lemma StronglySorted_nth {B} (R : B -> B -> Prop) (l : list B) :
  StronglySorted R l ->
  forall i j p q, (i < j)%nat ->
    nth_error l i = Some p -> nth_error l j = Some q -> R p q.
Proof.
  induction 1 as [|x r Hs IH Hall]; intros i j p q Hij Hi Hj.
  - destruct i; discriminate.
  - destruct j as [|j]; [lia|]. cbn in Hj. destruct i as [|i]; cbn in Hi.
    + injection Hi as <-. rewrite List.Forall_forall in Hall.
      apply Hall. now apply nth_error_In in Hj.
    + apply (IH i j); auto. lia.
Qed.

Lemma StronglySorted_app_In {B} (R : B -> B -> Prop) (l1 l2 : list B) :
  StronglySorted R (l1 ++ l2) ->
  forall p q, In p l1 -> In q l2 -> R p q.
Proof.
  induction l1 as [|x r IH]; cbn; intros Hs p q Hp Hq; [destruct Hp|].
  inversion Hs as [|? ? Hs' Hall]; subst.
  destruct Hp as [<-|Hp]; [|now apply IH].
  rewrite List.Forall_forall in Hall. apply Hall, in_or_app. now right.
Qed.

(** *** The order of the tuples *)

Hypothesis Hord : ordered F.

Lemma f_ltb_asym a b : f_ltb a b = true -> f_ltb b a = false.
Proof.
  intros Hab. destruct (f_ltb b a) eqn:Hba; [|reflexivity].
  assert (Haa := ltb_trans F Hord a b a Hab Hba).
  now rewrite (ltb_eqb F Hord a a (eqb_refl F Hord a)) in Haa.
Qed.

Lemma f_eqb_sym_false a b : f_eqb a b = false -> f_eqb b a = false.
Proof.
  intros Hab. destruct (f_eqb b a) eqn:Hba; [|reflexivity].
  now rewrite (eqb_sym F Hord b a Hba) in Hab.
Qed.

Lemma tuple_lt_asym (a b : F * nat) : tuple_lt a b = true -> tuple_lt b a = false.
Proof.
  destruct a as [a1 a2], b as [b1 b2]. unfold tuple_lt. cbn.
  destruct (f_eqb a1 b1) eqn:He.
  - rewrite (eqb_sym F Hord _ _ He). intros Hlt.
    apply Nat.ltb_lt in Hlt. apply Nat.ltb_ge. lia.
  - rewrite (f_eqb_sym_false _ _ He). apply f_ltb_asym.
Qed.

Lemma tuple_lt_nontrans (x y z : F * nat) :
  tuple_lt x y = false -> tuple_lt y z = false -> tuple_lt x z = false.
Proof.
  destruct x as [x1 x2], y as [y1 y2], z as [z1 z2]. unfold tuple_lt. cbn.
  destruct (f_eqb x1 y1) eqn:Hxy, (f_eqb y1 z1) eqn:Hyz; intros H1 H2.
  - rewrite (eqb_trans F Hord _ _ _ Hxy Hyz).
    apply Nat.ltb_ge in H1, H2. apply Nat.ltb_ge. lia.
  - destruct (f_eqb x1 z1) eqn:Hxz.
    + rewrite (eqb_trans F Hord _ _ _ (eqb_sym F Hord _ _ Hxy) Hxz) in Hyz. discriminate.
    + now rewrite (ltb_eqb_l F Hord x1 y1 z1 Hxy).
  - destruct (f_eqb x1 z1) eqn:Hxz.
    + rewrite (eqb_trans F Hord _ _ _ Hxz (eqb_sym F Hord _ _ Hyz)) in Hxy. discriminate.
    + now rewrite <- (ltb_eqb_r F Hord y1 z1 x1 Hyz).
  - assert (Hyx := ltb_total F Hord _ _ Hxy H1).
    assert (Hzy := ltb_total F Hord _ _ Hyz H2).
    assert (Hzx := ltb_trans F Hord _ _ _ Hzy Hyx).
    destruct (f_eqb x1 z1) eqn:Hxz.
    + now rewrite (ltb_eqb F Hord z1 x1 (eqb_sym F Hord _ _ Hxz)) in Hzx.
    + now apply f_ltb_asym.
Qed.

(** Of two tuples with different uids, the one that is not below the
    other has the greater stake, or an equal stake and the greater uid. *)
Lemma tuple_not_lt (a b : F * nat) :
  tuple_lt a b = false -> snd a <> snd b ->
  f_ltb (fst b) (fst a) = true
  \/ (f_eqb (fst a) (fst b) = true /\ (snd b < snd a)%nat).
Proof.
  destruct a as [a1 a2], b as [b1 b2]. unfold tuple_lt. cbn.
  destruct (f_eqb a1 b1) eqn:He; intros Hlt Hne.
  - right. split; [reflexivity|]. apply Nat.ltb_ge in Hlt. lia.
  - left. now apply (ltb_total F Hord).
Qed.

Lemma sorted_validators (m : metagraph F) :
  StronglySorted (fun a b => tuple_lt a b = false)
    (sorted_reverse tuple_lt (validators m)).
Proof. apply sorted_reverse_sorted; [apply tuple_lt_asym|apply tuple_lt_nontrans]. Qed.

End ValisFacts.

Section ValisClaims.
Import Bt Valis.
Context {W F : Type} `{Float F}.
Variable m : metagraph F.
Variable n : Z.
Variable w : W.

(** The sorted validators, cut: what [get_top_valis] returns uids of. *)
Local Abbreviation top := (slice_to n (sorted_reverse tuple_lt (validators m))).

Lemma top_prefix :
  exists k, top = take k (sorted_reverse tuple_lt (validators m))
    /\ k = (if (n <? 0)%Z
            then Z.to_nat (Z.max 0 (Z.of_nat (length (validators m)) + n))
            else Z.to_nat n).
Proof.
  destruct (slice_to_prefix n (sorted_reverse tuple_lt (validators m))) as (k & Hk & ->).
  eexists. split; [exact Hk|].
  now rewrite (Permutation_length (sorted_reverse_Permutation tuple_lt (validators m))).
Qed.

Lemma top_In p : In p top -> In p (validators m).
Proof.
  destruct top_prefix as (k & -> & _). intros Hin.
  apply (Permutation_in _ (sorted_reverse_Permutation tuple_lt (validators m))).
  rewrite <- (firstn_skipn k). apply in_or_app. now left.
Qed.

Lemma top_NoDup : NoDup (map snd top).
Proof.
  destruct top_prefix as (k & -> & _).
  assert (Hnd : NoDup (map snd (sorted_reverse tuple_lt (validators m)))).
  { apply NoDup_ListNoDup.
    apply (Permutation_NoDup
             (Permutation_map snd
                (Permutation_sym (sorted_reverse_Permutation tuple_lt (validators m))))).
    apply NoDup_ListNoDup, validators_NoDup. }
  rewrite <- (firstn_skipn k (sorted_reverse tuple_lt (validators m))), map_app in Hnd.
  apply NoDup_ListNoDup in Hnd. apply NoDup_ListNoDup. now apply NoDup_app_remove_r in Hnd.
Qed.

(** X5.  Every uid that [get_top_valis] returns has a validator permit
    and a stake, and no uid is returned twice. *)
Theorem get_top_valis_members (r : list nat) (w' : W) :
  get_top_valis m n w = (Ok r, w') ->
  NoDup r
  /\ forall uid, In uid r ->
       nth_error (validator_permit m) uid = Some true
       /\ (uid < length (S m))%nat.
Proof.
  intros Hr. destruct (get_top_valis_spec m n w) as [[_ Hs]|[_ Hs]];
    rewrite Hs in Hr; [|discriminate]. injection Hr as <- <-.
  split; [exact top_NoDup|].
  intros uid Hin. apply in_map_iff in Hin. destruct Hin as ([s u] & <- & Hin).
  apply top_In, validators_In in Hin. destruct Hin as [Hs' Hp]. cbn.
  split; [exact Hp|]. apply nth_error_Some. congruence.
Qed.

(** X6.  With stakes that are ordered, [get_top_valis] returns the uids
    by stake, the greatest first and, among equal stakes, the greater uid
    first. *)
Theorem get_top_valis_descending (r : list nat) (w' : W) (i j u v : nat) :
  ordered F ->
  get_top_valis m n w = (Ok r, w') ->
  (i < j)%nat -> nth_error r i = Some u -> nth_error r j = Some v ->
  exists su sv,
    nth_error (S m) u = Some su /\ nth_error (S m) v = Some sv
    /\ (f_ltb sv su = true \/ (f_eqb su sv = true /\ (v < u)%nat)).
Proof.
  intros Hord Hr Hij Hi Hj. destruct (get_top_valis_spec m n w) as [[_ Hs]|[_ Hs]];
    rewrite Hs in Hr; [|discriminate]. injection Hr as <- <-.
  assert (Hne : u <> v).
  { intros ->. assert (Hnd := top_NoDup). apply NoDup_ListNoDup in Hnd.
    rewrite NoDup_nth_error in Hnd.
    assert (i = j); [|lia]. apply Hnd; [|congruence].
    apply nth_error_Some. congruence. }
  rewrite nth_error_map in Hi, Hj.
  destruct (nth_error top i) as [[su u']|] eqn:Hpi; [|discriminate].
  destruct (nth_error top j) as [[sv v']|] eqn:Hpj; [|discriminate].
  cbn in Hi, Hj. injection Hi as ->. injection Hj as ->.
  exists su, sv.
  split; [apply (validators_In m su u), top_In; eapply nth_error_In; exact Hpi|].
  split; [apply (validators_In m sv v), top_In; eapply nth_error_In; exact Hpj|].
  apply (tuple_not_lt Hord (su, u) (sv, v)); [|exact Hne].
  destruct top_prefix as (k & Hk & _). rewrite Hk in Hpi, Hpj.
  rewrite nth_error_firstn in Hpi, Hpj.
  destruct (i <? k)%nat; [|discriminate]. destruct (j <? k)%nat; [|discriminate].
  exact (StronglySorted_nth _ _ (sorted_validators Hord m) i j _ _ Hij Hpi Hpj).
Qed.

(** X7.  For [n >= 0], [get_top_valis] returns [n] uids, or as many as
    there are validators if those are fewer; when they are not more than
    [n], it returns all of them. *)
Theorem get_top_valis_count (r : list nat) (w' : W) :
  (0 <= n)%Z ->
  get_top_valis m n w = (Ok r, w') ->
  length r = Nat.min (Z.to_nat n) (length (validators m))
  /\ ((Z.of_nat (length (validators m)) <= n)%Z ->
      Permutation r (map snd (validators m))).
Proof.
  intros Hn Hr. destruct (get_top_valis_spec m n w) as [[_ Hs]|[_ Hs]];
    rewrite Hs in Hr; [|discriminate]. injection Hr as <- <-.
  destruct top_prefix as (k & Hk & Hkn). rewrite Hk.
  destruct (Z.ltb_spec n 0); [lia|]. subst k.
  rewrite length_map, length_firstn.
  rewrite (Permutation_length (sorted_reverse_Permutation tuple_lt (validators m))).
  split; [reflexivity|]. intros Hall.
  rewrite firstn_all2
    by (rewrite (Permutation_length (sorted_reverse_Permutation tuple_lt (validators m)));
        lia).
  apply Permutation_map, sorted_reverse_Permutation.
Qed.

(** X8.  With stakes that are ordered, every validator that
    [get_top_valis] leaves out ranks below every one it returns: its stake
    is smaller, or equal with a smaller uid. *)
Theorem get_top_valis_top (r : list nat) (w' : W) (su : F) (u v : nat) :
  ordered F ->
  get_top_valis m n w = (Ok r, w') ->
  In (su, u) (validators m) -> ~ In u r -> In v r ->
  exists sv,
    nth_error (S m) v = Some sv
    /\ (f_ltb su sv = true \/ (f_eqb sv su = true /\ (u < v)%nat)).
Proof.
  intros Hord Hr Hu Hnot Hv. destruct (get_top_valis_spec m n w) as [[_ Hs]|[_ Hs]];
    rewrite Hs in Hr; [|discriminate]. injection Hr as <- <-.
  apply in_map_iff in Hv. destruct Hv as ([sv v'] & Hv' & Hv). cbn in Hv'. subst v'.
  exists sv. split; [now apply (validators_In m sv v), top_In|].
  apply (tuple_not_lt Hord (sv, v) (su, u)).
  - destruct top_prefix as (k & Hk & _). rewrite Hk in Hv, Hnot.
    assert (Hsorted := sorted_validators Hord m).
    rewrite <- (firstn_skipn k) in Hsorted.
    apply (Permutation_in _
             (Permutation_sym (sorted_reverse_Permutation tuple_lt (validators m)))) in Hu.
    rewrite <- (firstn_skipn k) in Hu. apply in_app_or in Hu.
    destruct Hu as [Hu|Hu]; [destruct Hnot; apply in_map_iff; now exists (su, u)|].
    exact (StronglySorted_app_In (fun a b => tuple_lt a b = false) _ _ Hsorted
             (sv, v) (su, u) Hv Hu).
  - cbn. intros ->. apply Hnot. apply in_map_iff. now exists (sv, u).
Qed.

(** X9.  A negative [n] is not refused and does not mean "none":
    [get_top_valis] then leaves out the [-n] lowest validators, as for the
    count of validators plus [n] (or 0 if that is negative). *)
Theorem get_top_valis_negative :
  (n < 0)%Z ->
  get_top_valis m n w
  = get_top_valis m (Z.max 0 (Z.of_nat (length (validators m)) + n)) w.
Proof.
  intros Hn.
  destruct (get_top_valis_spec m n w) as [[Hlen ->]|[Hlen ->]];
    destruct (get_top_valis_spec m (Z.max 0 (Z.of_nat (length (validators m)) + n)) w)
      as [[Hlen' ->]|[Hlen' ->]]; try lia; [|reflexivity].
  do 3 f_equal. unfold slice_to.
  rewrite (Permutation_length (sorted_reverse_Permutation tuple_lt (validators m))).
  destruct (Z.ltb_spec n 0); [|lia].
  destruct (Z.ltb_spec (Z.max 0 (Z.of_nat (length (validators m)) + n)) 0); [lia|].
  reflexivity.
Qed.

(** X10.  [get_top_valis] raises an [IndexError] exactly when
    [validator_permit] has fewer entries than [S]: the lookup
    [validator_permit[uid]] is not guarded. *)
Theorem get_top_valis_IndexError :
  (exists a w', get_top_valis m n w = (Exn (PyExc IndexError a), w'))
  <-> (length (validator_permit m) < length (S m))%nat.
Proof.
  destruct (get_top_valis_spec m n w) as [[Hlen ->]|[Hlen ->]]; split.
  - intros (a & w' & Heq). discriminate Heq.
  - lia.
  - intros _. exact Hlen.
  - intros _. eauto.
Qed.

End ValisClaims.

(** ** The top miners *)

Section MinersFacts.
Import Bt Valis.
Context {F : Type} `{Float F}.
Variable TOP_MINER_FRACTION : F.

Lemma filter_snd_enumerate_from (P : F -> Prop) `{!forall x, Decision (P x)}
    (l : list F) (k : nat) :
  map snd (filter (fun uw : nat * F => P (snd uw)) (combine (seq k (length l)) l))
  = filter P l.
Proof.
  revert k. induction l as [|x r IH]; intros k; [reflexivity|].
  cbn [length seq combine]. rewrite !filter_cons. cbn [snd].
  destruct (decide (P x)); cbn [map snd]; now rewrite IH.
Qed.

Lemma miners_of_row_In (row : list F) (u : nat) :
  In u (miners_of_row TOP_MINER_FRACTION row)
  <-> exists wt,
        nth_error row u = Some wt
        /\ f_ltb f_zero wt = true
        /\ f_ltb (f_mul TOP_MINER_FRACTION (positive_total row)) wt = true.
Proof.
  assert (E := filter_snd_enumerate_from (fun x => f_ltb f_zero x = true) row 0).
  unfold miners_of_row, positive_total. cbv zeta. unfold enumerate at 1 3.
  rewrite in_map_iff. split.
  - intros ([u' wt] & Hu & Hin). cbn in Hu. subst u'.
    apply list_elem_of_In, list_elem_of_filter in Hin. destruct Hin as [Habove Hin].
    apply list_elem_of_filter in Hin. destruct Hin as [Hpos Hin].
    apply list_elem_of_In, (enumerate_In row u wt) in Hin.
    cbn [snd] in Habove, Hpos. rewrite E in Habove.
    exists wt. auto.
  - intros (wt & Hn & Hpos & Habove). exists (u, wt). split; [reflexivity|].
    apply list_elem_of_In, list_elem_of_filter. cbn [snd]. rewrite E.
    split; [exact Habove|].
    apply list_elem_of_filter. split; [exact Hpos|].
    now apply list_elem_of_In, (enumerate_In row u wt).
Qed.

(** The outer loop: the miners of the rows that exist are added, and
    there is one warning for each validator without a row. *)
Lemma scan_valis_spec (rows : list (list F)) (vs : list nat) :
  forall (acc : gset nat) (w : list string),
  exists tm,
    scan_valis TOP_MINER_FRACTION rows vs acc w
    = (Ok tm,
       w ++ map no_row_warning (filter (fun v => nth_error rows v = None) vs))
    /\ forall u, u ∈ tm
         <-> u ∈ acc
             \/ exists v row, In v vs /\ nth_error rows v = Some row
                  /\ In u (miners_of_row TOP_MINER_FRACTION row).
Proof.
  induction vs as [|v rest IH]; intros acc w; cbn [scan_valis].
  - exists acc. split; [cbn; now rewrite app_nil_r|].
    intros u. split; [tauto|]. intros [Hu|(v & row & [] & _)]. exact Hu.
  - destruct (nth_error rows v) as [row|] eqn:Hrow.
    + destruct (IH (acc ∪ list_to_set (miners_of_row TOP_MINER_FRACTION row)) w)
        as (tm & -> & Htm).
      exists tm. split.
      * rewrite filter_cons_False by congruence. reflexivity.
      * intros u. rewrite Htm, elem_of_union, elem_of_list_to_set, list_elem_of_In.
        split.
        -- intros [[Hu|Hu]|(v' & row' & Hin & Hr & Hm)]; [tauto| |].
           ++ right. exists v, row. repeat split; auto. now left.
           ++ right. exists v', row'. repeat split; auto. now right.
        -- intros [Hu|(v' & row' & [<-|Hin] & Hr & Hm)]; [tauto| |].
           ++ left. right. congruence.
           ++ right. exists v', row'. auto.
    + destruct (IH acc (w ++ [no_row_warning v])) as (tm & Hs & Htm).
      exists tm. split.
      * change (scan_valis TOP_MINER_FRACTION rows rest acc (w ++ [no_row_warning v])
                = (Ok tm, w ++ map no_row_warning
                                 (filter (fun v => nth_error rows v = None) (v :: rest)))).
        rewrite Hs, filter_cons_True by exact Hrow. cbn [map]. now rewrite <- app_assoc.
      * intros u. rewrite Htm. split.
        -- intros [Hu|(v' & row' & Hin & Hr & Hm)]; [tauto|].
           right. exists v', row'. repeat split; auto. now right.
        -- intros [Hu|(v' & row' & [<-|Hin] & Hr & Hm)]; [tauto|congruence|].
           right. exists v', row'. auto.
Qed.

(** X11.  A uid is among the top miners exactly when one of the ten top
    validators that has a row of weights gives it a positive weight above
    [TOP_MINER_FRACTION] times the sum of the positive weights of that
    row. *)
Theorem list_top_miners_member (m : metagraph F) (w w' : list string) (tm : gset nat)
    (u : nat) :
  list_top_miners TOP_MINER_FRACTION m w = (Ok tm, w') ->
  u ∈ tm
  <-> exists vs v row wt,
        get_top_valis m 10 w = (Ok vs, w)
        /\ In v vs
        /\ nth_error (weights m) v = Some row
        /\ nth_error row u = Some wt
        /\ f_ltb f_zero wt = true
        /\ f_ltb (f_mul TOP_MINER_FRACTION (positive_total row)) wt = true.
Proof.
  unfold list_top_miners. intros Hr.
  destruct (get_top_valis_spec m 10 w) as [[_ Hg]|[_ Hg]].
  - erewrite bind_Ok in Hr by exact Hg.
    destruct (scan_valis_spec (weights m)
                (map snd (slice_to 10 (sorted_reverse tuple_lt (validators m)))) ∅ w)
      as (tm' & Hs & Htm).
    rewrite Hs in Hr. injection Hr as <- _. rewrite Htm. split.
    + intros [Hu|(v & row & Hin & Hrow & Hm)]; [now apply not_elem_of_empty in Hu|].
      apply miners_of_row_In in Hm. destruct Hm as (wt & Hn & Hpos & Habove).
      eexists _, v, row, wt. repeat split; eauto.
    + intros (vs & v & row & wt & Hg' & Hin & Hrow & Hn & Hpos & Habove).
      rewrite Hg in Hg'. injection Hg' as <-.
      right. exists v, row. repeat split; auto.
      apply miners_of_row_In. eauto.
  - erewrite bind_Exn in Hr by exact Hg. discriminate Hr.
Qed.

(** X12.  When every uid with a stake has an entry in [validator_permit],
    [list_top_miners] does not fail: a top validator without a row of
    weights is passed over, with one warning for each, in the order of
    the validators, and nothing else is logged. *)
Theorem list_top_miners_warnings (m : metagraph F) (w : list string) :
  (length (S m) <= length (validator_permit m))%nat ->
  exists vs tm,
    get_top_valis m 10 w = (Ok vs, w)
    /\ list_top_miners TOP_MINER_FRACTION m w
       = (Ok tm,
          w ++ map no_row_warning
                 (filter (fun v => (length (weights m) <= v)%nat) vs)).
Proof.
  intros Hlen. unfold list_top_miners.
  destruct (get_top_valis_spec m 10 w) as [[_ Hg]|[Hlt _]]; [|lia].
  destruct (scan_valis_spec (weights m)
              (map snd (slice_to 10 (sorted_reverse tuple_lt (validators m)))) ∅ w)
    as (tm & Hs & _).
  eexists _, tm. split; [exact Hg|].
  erewrite bind_Ok by exact Hg. rewrite Hs. do 3 f_equal.
  apply list_filter_iff. intros v. apply nth_error_None.
Qed.

End MinersFacts.

(** ** More on the child entry point *)

Section ChildMore.
Import Harness.
Variable env : Env.
Variable func : partial.

Ltac run_child :=
  unfold child_run, _wrapped_func, call, put, print, c_lib, when, try_except,
    mbind, M_bind, mret, M_ret, child0, c_event; cbn.

Ltac child_cases lq :=
  destruct (fails env setrlimit) as [[? ?]|] eqn:?; cbn;
  [|destruct lq; cbn;
    [destruct (fails env install_queue_handler) as [[c0 ?]|] eqn:?; cbn;
     [destruct (derives_Exception c0) eqn:?; cbn|]|]];
  try (destruct (outcome func) as [?|c1 ?| |] eqn:?; cbn;
       rewrite ?orb_true_r; cbn).

(** What the child can have written when it is gone: nothing, the value
    the work returned, or an error with its rendered trace. *)
Lemma child_run_writes lq :
  writes (child_run env func lq) = []
  \/ (exists v, outcome func = Return v
                /\ writes (child_run env func lq) = [deliver env (PyTuple [v])])
  \/ (exists cls a,
        writes (child_run env func lq)
        = [deliver env (PyTuple [PyExc cls a; PyStr (format_exc env (PyExc cls a))])]).
Proof.
  run_child. child_cases lq;
    repeat match goal with
           | |- context [pickled env ?x] => destruct (pickled env x); cbn
           end; eauto 6.
Qed.

Lemma deliver_Loaded v x : deliver env v = Loaded x -> x = v.
Proof.
  unfold deliver. destruct (unpickled env v) as [[? ?]|]; [discriminate|].
  now intros [= ->].
Qed.

(** X13.  The child entry point puts at most one item on the result
    queue, and what it puts is a tuple of one item or of two, whatever the
    library calls and the work do. *)
Theorem _wrapped_func_one_envelope (lq : bool) :
  (length (c_queue (snd (_wrapped_func env func lq child0))) <= 1)%nat
  /\ Forall (fun x => Envelope.recognised x = true)
       (c_queue (snd (_wrapped_func env func lq child0))).
Proof.
  unfold _wrapped_func, call, put, print, c_lib, when, try_except,
    mbind, M_bind, mret, M_ret, child0, c_event; cbn.
  child_cases lq; split; cbn; try lia; repeat constructor.
Qed.

(** X14.  When [setrlimit] does not fail and the work returns or raises,
    anything at all, the child puts exactly one envelope on the queue:
    every error of the work, a [SystemExit] or a [KeyboardInterrupt]
    included, and every error of the logging setup is caught. *)
Theorem _wrapped_func_always_envelope (lq : bool) :
  fails env setrlimit = None ->
  outcome func <> Exit -> outcome func <> Hang ->
  fst (_wrapped_func env func lq child0) = Ok tt
  /\ length (c_queue (snd (_wrapped_func env func lq child0))) = 1%nat.
Proof.
  intros Hrl Hexit Hhang.
  unfold _wrapped_func, call, put, print, c_lib, when, try_except,
    mbind, M_bind, mret, M_ret, child0, c_event; cbn.
  rewrite Hrl. cbn.
  destruct lq; cbn;
    [destruct (fails env install_queue_handler) as [[c0 ?]|] eqn:?; cbn;
     [destruct (derives_Exception c0) eqn:?; cbn|]|];
    try (destruct (outcome func) as [?|c1 ?| |] eqn:?; cbn;
         rewrite ?orb_true_r; cbn);
    try contradiction; auto.
Qed.

(** X15.  A failure to set up the forwarding of log records is not fatal
    when it is an ordinary error: the child then exits at the same time and
    with the same envelope as a child that was given no log queue. *)
Theorem _wrapped_func_logging_not_fatal :
  (forall cls a, fails env install_queue_handler = Some (cls, a) ->
                 derives_Exception cls = true) ->
  exit_after (child_run env func true) = exit_after (child_run env func false)
  /\ writes (child_run env func true) = writes (child_run env func false).
Proof.
  intros Hord. run_child.
  destruct (fails env setrlimit) as [[? ?]|]; cbn; [auto|].
  destruct (fails env install_queue_handler) as [[c0 a0]|] eqn:Hi; cbn.
  - rewrite (Hord _ _ eq_refl). cbn.
    destruct (outcome func) as [?|c1 ?| |]; cbn; rewrite ?orb_true_r; cbn; auto.
  - destruct (outcome func) as [?|c1 ?| |]; cbn; rewrite ?orb_true_r; cbn; auto.
Qed.

(** When the child gets to the work, it exits when the work ends, unless
    the pipe cannot take the envelope. *)
Lemma child_run_exit_after lq :
  fails env setrlimit = None -> ordinary_failures env ->
  exit_after (child_run env func lq)
  = if stuck env func then None else Some (seconds func).
Proof.
  intros Hrl Hord.
  destruct (_wrapped_func_reaches_work env func lq Hrl Hord) as (tr & Hw).
  unfold child_run, stuck. rewrite Hw.
  destruct (outcome func) as [v|cls a| |]; cbn [c_queue c_clock envelope exit_after].
  - now destruct (flushed env _).
  - now destruct (flushed env _).
  - unfold flushed. cbn [pipe_bytes]. now rewrite (proj2 (N.leb_le _ _) (N.le_0_l _)).
  - reflexivity.
Qed.

Lemma child_run_Exit lq :
  fails env setrlimit = None -> ordinary_failures env ->
  outcome func = Exit ->
  writes (child_run env func lq) = [].
Proof.
  intros Hrl Hord Ho.
  destruct (_wrapped_func_reaches_work env func lq Hrl Hord) as (tr & Hw).
  unfold child_run. rewrite Hw, Ho. reflexivity.
Qed.

Lemma child_run_stubborn lq :
  stubborn (child_run env func lq) = ignores_sigterm func.
Proof.
  unfold child_run. destruct (_wrapped_func env func lq child0). reflexivity.
Qed.

End ChildMore.

(** ** More on what [run_in_subprocess] hands back *)

Section HarnessMore.
Import Harness.
Variable env : Env.
Variable func : partial.
Variable ttl : Z.
Variable mode : StartMethod.
Variable expected_errors : gset string.

(** A child that has not exited when the time is up is left running by
    the bounded wait. *)
Lemma process_join_alive q r lq li tr :
  match exit_after r with Some t => (ttl < Z.of_N t)%Z | None => True end ->
  process_join (Some ttl)
    {| queue := q; proc := Running r; log_queue := lq; listener := li; trace := tr |}
  = (Ok tt, {| queue := q; proc := Running r; log_queue := lq; listener := li;
               trace := tr ++ [Join (Some ttl)] |}).
Proof.
  intros Ht. unfold process_join, event, set_proc. cbn.
  destruct (exit_after r) as [t|]; [|reflexivity].
  destruct (Z.leb_spec (Z.of_N t) ttl); [lia|reflexivity].
Qed.


(** X17.  A work whose process dies within [ttl] seconds without
    returning ([os._exit], a fatal signal) leaves no envelope, and
    [run_in_subprocess] raises the "Failed to get result" error with the
    name and the arguments of the work. *)
Theorem run_in_subprocess_dead_child (s : Sys) :
  fails env setrlimit = None ->
  ordinary_failures env ->
  outcome func = Exit ->
  (Z.of_N (seconds func) <= ttl)%Z ->
  fst (run_in_subprocess env func ttl mode expected_errors s)
  = Exn (PyExc Exception
      [PyStr ("Failed to get result from subprocess " +:+ func_name func
              +:+ "(*args=" +:+ py_str (PyTuple (args func))
              +:+ ",**kwargs=" +:+ repr_dict (keywords func) +:+ "): "
              +:+ py_str (PyExc Empty []))]).
Proof.
  intros Hrl Hord Ho Ht.
  destruct (launch_and_join_started env func ttl mode s Hord) as (lq & li & pre & _ & Hl).
  assert (He : exit_after (child_run env func lq) = Some (seconds func)).
  { rewrite child_run_exit_after by assumption. unfold stuck. now rewrite Ho. }
  rewrite (process_join_exited ttl _ _ lq li _ _ He Ht) in Hl.
  rewrite (child_run_Exit env func lq Hrl Hord Ho) in Hl. cbn [app] in Hl.
  unfold run_in_subprocess, collect. erewrite bind_Ok by exact Hl.
  assert (Hr := receive_empty env func ttl lq li
                  (((trace s ++ pre) ++ [Start]) ++ [Join (Some ttl)])).
  unfold mbind, M_bind.
  destruct (receive env func ttl _) as [[x|e| |] s2]; cbn in Hr; try discriminate.
  cbn. exact Hr.
Qed.

(** A child that is still running when the time is up is signalled and
    waited for; the call then raises the [TimeoutError], or never returns
    if the child never exits. *)
Lemma run_in_subprocess_slow (s : Sys) :
  fails env setrlimit = None ->
  ordinary_failures env ->
  stuck env func = true \/ (ttl < Z.of_N (seconds func))%Z ->
  exists s1,
    run_in_subprocess env func ttl mode expected_errors s
    = (if ignores_sigterm func && stuck env func
       then Blocked
       else Exn (PyExc TimeoutError
              [PyStr ("Failed to " +:+ func_name func +:+ " after " +:+ pretty ttl
                      +:+ " seconds")]), s1).
Proof.
  intros Hrl Hord Hslow.
  destruct (launch_and_join_started env func ttl mode s Hord) as (lq & li & pre & _ & Hl).
  assert (He := child_run_exit_after env func lq Hrl Hord).
  rewrite process_join_alive in Hl.
  2: { rewrite He. destruct (stuck env func) eqn:Hst; [exact I|].
       destruct Hslow as [Hh|Hlt]; [discriminate Hh|exact Hlt]. }
  unfold run_in_subprocess, collect. erewrite bind_Ok by exact Hl.
  destruct (receive_alive env func ttl [] (child_run env func lq) lq li
              (((trace s ++ pre) ++ [Start]) ++ [Join (Some ttl)])) as (stop & _ & Hr).
  rewrite He, child_run_stubborn in Hr.
  destruct (stuck env func), (ignores_sigterm func);
    (erewrite bind_Exn by exact Hr) || (erewrite bind_Blocked by exact Hr);
    eexists; reflexivity.
Qed.

Lemma Hang_stuck : outcome func = Hang -> stuck env func = true.
Proof. intros H. unfold stuck. now rewrite H. Qed.

(** X18.  A work that is still running after [ttl] seconds, whatever it
    would have returned or raised later, makes [run_in_subprocess] raise
    the [TimeoutError] once its process is gone.  A process that ignores the
    termination signal is gone when the work has ended and the pipe of the
    result queue has taken the envelope; if the work never ends, or the
    envelope does not fit in the pipe, which nobody reads, the call never
    returns. *)
Theorem run_in_subprocess_slow_work (s : Sys) :
  fails env setrlimit = None ->
  ordinary_failures env ->
  outcome func = Hang \/ (ttl < Z.of_N (seconds func))%Z ->
  fst (run_in_subprocess env func ttl mode expected_errors s)
  = if ignores_sigterm func && stuck env func
    then Blocked
    else Exn (PyExc TimeoutError
           [PyStr ("Failed to " +:+ func_name func +:+ " after " +:+ pretty ttl
                   +:+ " seconds")]).
Proof.
  intros Hrl Hord Hslow.
  destruct (run_in_subprocess_slow s Hrl Hord) as (s1 & Hrun).
  { destruct Hslow as [Hh|Hlt]; [left; now apply Hang_stuck|now right]. }
  rewrite Hrun. reflexivity.
Qed.

(** X29.  A work that returns or raises, however soon, with an envelope
    that does not fit in the pipe of the result queue, loses it: the child
    cannot exit before the pipe is read, and the parent reads only after
    the child has exited.  The bounded wait runs out, and
    [run_in_subprocess] raises the [TimeoutError], or never returns when
    the child ignores the termination signal. *)
Theorem run_in_subprocess_full_pipe (s : Sys) (x : PyVal) :
  fails env setrlimit = None ->
  ordinary_failures env ->
  envelope env (outcome func) = Some x ->
  flushed env [x] = false ->
  fst (run_in_subprocess env func ttl mode expected_errors s)
  = if ignores_sigterm func
    then Blocked
    else Exn (PyExc TimeoutError
           [PyStr ("Failed to " +:+ func_name func +:+ " after " +:+ pretty ttl
                   +:+ " seconds")]).
Proof.
  intros Hrl Hord Hx Hfull.
  assert (Hst : stuck env func = true).
  { unfold stuck. destruct (outcome func); try discriminate Hx;
      rewrite Hx, Hfull; reflexivity. }
  destruct (run_in_subprocess_slow s Hrl Hord (or_introl Hst)) as (s1 & Hrun).
  rewrite Hrun, Hst, andb_true_r. reflexivity.
Qed.

(** When the child exits in time and has written nothing, the read fails
    with [queue.Empty]. *)
Lemma run_in_subprocess_nothing_written (s : Sys) t :
  ordinary_failures env ->
  (forall lq, exit_after (child_run env func lq) = Some t
              /\ writes (child_run env func lq) = []) ->
  (Z.of_N t <= ttl)%Z ->
  fst (run_in_subprocess env func ttl mode expected_errors s)
  = Exn (PyExc Exception
      [PyStr ("Failed to get result from subprocess " +:+ func_name func
              +:+ "(*args=" +:+ py_str (PyTuple (args func))
              +:+ ",**kwargs=" +:+ repr_dict (keywords func) +:+ "): "
              +:+ py_str (PyExc Empty []))]).
Proof.
  intros Hord Hrun Ht.
  destruct (launch_and_join_started env func ttl mode s Hord) as (lq & li & pre & _ & Hl).
  destruct (Hrun lq) as [He Hw].
  rewrite (process_join_exited ttl _ _ lq li _ _ He Ht), Hw in Hl. cbn [app] in Hl.
  unfold run_in_subprocess, collect. erewrite bind_Ok by exact Hl.
  assert (Hr := receive_empty env func ttl lq li
                  (((trace s ++ pre) ++ [Start]) ++ [Join (Some ttl)])).
  unfold mbind, M_bind.
  destruct (receive env func ttl _) as [[y|e| |] s2]; cbn in Hr; try discriminate.
  cbn. exact Hr.
Qed.

(** X30.  A work that returns or raises, within [ttl] seconds, with an
    envelope that cannot be pickled, loses it: the queue drops the
    envelope in the child, the child exits, and [run_in_subprocess] raises
    the "Failed to get result" error of an empty queue. *)
Theorem run_in_subprocess_unpicklable (s : Sys) (x : PyVal) :
  fails env setrlimit = None ->
  ordinary_failures env ->
  envelope env (outcome func) = Some x ->
  pickled env x = None ->
  (Z.of_N (seconds func) <= ttl)%Z ->
  fst (run_in_subprocess env func ttl mode expected_errors s)
  = Exn (PyExc Exception
      [PyStr ("Failed to get result from subprocess " +:+ func_name func
              +:+ "(*args=" +:+ py_str (PyTuple (args func))
              +:+ ",**kwargs=" +:+ repr_dict (keywords func) +:+ "): "
              +:+ py_str (PyExc Empty []))]).
Proof.
  intros Hrl Hord Hx Hp Ht.
  apply (run_in_subprocess_nothing_written s (seconds func) Hord); [|exact Ht].
  intros lq.
  destruct (_wrapped_func_reaches_work env func lq Hrl Hord) as (tr & Hw).
  unfold child_run. rewrite Hw, Hx. cbn [c_queue c_clock exit_after writes].
  unfold flushed. cbn [pipe_bytes delivered]. rewrite Hp.
  rewrite (proj2 (N.leb_le _ _) (N.le_0_l _)).
  destruct (outcome func); try discriminate Hx; auto.
Qed.

(** A pickle that does not load makes the read fail with the error of the
    loading. *)
Lemma receive_unloadable cls a rest lq li tr :
  derives_Exception cls = true ->
  fst (receive env func ttl
         {| queue := Unloadable cls a :: rest; proc := Exited; log_queue := lq;
            listener := li; trace := tr |})
  = Exn (PyExc Exception
      [PyStr ("Failed to get result from subprocess " +:+ func_name func
              +:+ "(*args=" +:+ py_str (PyTuple (args func))
              +:+ ",**kwargs=" +:+ repr_dict (keywords func) +:+ "): "
              +:+ py_str (PyExc cls a))]).
Proof.
  intros Hc.
  unfold receive, process_is_alive, process_terminate, process_join, queue_get, lib,
    read, when, try_except, raise, mbind, M_bind, mret, M_ret, event, set_proc.
  cbn -[py_str]. destruct li; cbn -[py_str];
    [destruct (fails env listener_stop) as [[? ?]|]; cbn -[py_str];
     [|destruct (fails env atexit_unregister) as [[? ?]|]; cbn -[py_str]]|];
    rewrite Hc; reflexivity.
Qed.

(** X31.  A work that returns or raises, within [ttl] seconds, with an
    envelope that fits in the pipe but whose pickle does not load in the
    parent (an error class that cannot be called with the [args] of its
    instance), loses it: [queue.get] raises the error of the loading, and
    [run_in_subprocess] raises the "Failed to get result" error with the
    text of that error. *)
Theorem run_in_subprocess_unloadable (s : Sys) (x : PyVal) (n : N) (cls : ExcClass)
    (a : list PyVal) :
  fails env setrlimit = None ->
  ordinary_failures env ->
  envelope env (outcome func) = Some x ->
  pickled env x = Some n -> (n <= pipe_capacity env)%N ->
  unpickled env x = Some (cls, a) -> derives_Exception cls = true ->
  (Z.of_N (seconds func) <= ttl)%Z ->
  fst (run_in_subprocess env func ttl mode expected_errors s)
  = Exn (PyExc Exception
      [PyStr ("Failed to get result from subprocess " +:+ func_name func
              +:+ "(*args=" +:+ py_str (PyTuple (args func))
              +:+ ",**kwargs=" +:+ repr_dict (keywords func) +:+ "): "
              +:+ py_str (PyExc cls a))]).
Proof.
  intros Hrl Hord Hx Hp Hn Hu Hc Ht.
  destruct (launch_and_join_started env func ttl mode s Hord) as (lq & li & pre & _ & Hl).
  destruct (_wrapped_func_reaches_work env func lq Hrl Hord) as (tr & Hw).
  assert (Hrun : exit_after (child_run env func lq) = Some (seconds func)
                 /\ writes (child_run env func lq) = [Unloadable cls a]).
  { unfold child_run. rewrite Hw, Hx. cbn [c_queue c_clock exit_after writes].
    unfold flushed. cbn [pipe_bytes delivered]. unfold deliver. rewrite Hp, Hu.
    rewrite N.add_0_l, (proj2 (N.leb_le _ _) Hn).
    destruct (outcome func); try discriminate Hx; auto. }
  destruct Hrun as [He Hwr].
  rewrite (process_join_exited ttl _ _ lq li _ _ He Ht), Hwr in Hl. cbn [app] in Hl.
  unfold run_in_subprocess, collect. erewrite bind_Ok by exact Hl.
  assert (Hr := receive_unloadable cls a [] lq li
                  (((trace s ++ pre) ++ [Start]) ++ [Join (Some ttl)]) Hc).
  unfold mbind, M_bind.
  destruct (receive env func ttl _) as [[y|e| |] s2]; cbn in Hr; try discriminate.
  cbn. exact Hr.
Qed.

(** X19.  A tuple read from the queue whose first item is no exception
    is taken for a success, whatever its length: the first item is
    returned and the other items are dropped. *)
Theorem collect_returns_first_item (s : Sys) (v : PyVal) (more : list PyVal)
    (rest : list Item) :
  proc s = Exited -> queue s = Loaded (PyTuple (v :: more)) :: rest ->
  is_BaseException v = false ->
  fst (collect env func ttl expected_errors s) = Ok v.
Proof.
  intros Hp Hq Hv.
  destruct (collect_exited env func ttl expected_errors s _ rest Hp Hq) as (s3 & _ & ->).
  unfold interpret, item, mbind, M_bind, mret, M_ret. cbn.
  now rewrite (not_BaseException_not_Exception v Hv), Hv.
Qed.

(** X20.  A tuple of one item read from the queue, the item being an
    instance of an [Exception] class whose name is not in
    [expected_errors], makes the call raise [IndexError]: the message for
    the log reads the second item before the first is raised, and nothing
    is logged. *)
Theorem collect_one_item_exception (s : Sys) (K : ExcClass) (a : list PyVal)
    (rest : list Item) :
  proc s = Exited -> queue s = Loaded (PyTuple [PyExc K a]) :: rest ->
  derives_Exception K = true ->
  class_name K ∉ expected_errors ->
  let out := collect env func ttl expected_errors s in
  fst out = Exn (PyExc IndexError [PyStr "tuple index out of range"])
  /\ errors_logged (trace (snd out)) = errors_logged (trace s).
Proof.
  intros Hp Hq HK Hin out. subst out.
  destruct (collect_exited env func ttl expected_errors s _ rest Hp Hq) as (s3 & Hlog & ->).
  unfold interpret, item, when, log, raise, mbind, M_bind, mret, M_ret. cbn.
  rewrite HK, bool_decide_eq_true_2 by exact Hin. cbn. auto.
Qed.

End HarnessMore.

(** ** The expected errors *)

Section ExpectedErrors.
Import Harness.
Variable env : Env.
Variable func : partial.
Variable ttl : Z.

Ltac run_parent :=
  unfold launch_and_join, collect, receive, fresh, process_start, process_is_alive,
    process_terminate, process_join, queue_get, lib, log, assign_log_queue,
    assign_listener, read, when, try_except, raise, mbind, M_bind, mret, M_ret,
    event, set_proc.

Ltac split_cases :=
  repeat match goal with
         | |- context [fails env ?c] => destruct (fails env c) as [[? ?]|]; cbn -[interpret]
         | |- context [derives_Exception ?c] =>
             destruct (derives_Exception c) eqn:?; cbn -[interpret]
         | |- context [exit_after ?r] => destruct (exit_after r); cbn -[interpret]
         | |- context [stubborn ?r] => destruct (stubborn r); cbn -[interpret]
         | |- context [(?a <=? ?b)%Z] => destruct (a <=? b)%Z; cbn -[interpret]
         | |- context [match ?l with [] => _ | _ :: _ => _ end] =>
             destruct l; cbn -[interpret]
         | |- context [match ?o with Some _ => _ | None => _ end] =>
             destruct o; cbn -[interpret]
         | |- context [if ?b then _ else _] => destruct b; cbn -[interpret]
         end.

(** With a two-item envelope, or a one-item envelope that holds no
    [Exception], it does not depend on the expected errors either. *)
Lemma interpret_fst_expected ee1 ee2 x (s s' : Sys) :
  match x with
  | PyTuple [v] => is_Exception v = false
  | PyTuple [_; _] => True
  | _ => False
  end ->
  fst (interpret ee1 x s) = fst (interpret ee2 x s').
Proof.
  unfold interpret, item, when, log, raise, mbind, M_bind, mret, M_ret.
  destruct x as [| | | |items| |]; cbn; try contradiction.
  destruct items as [|v [|tb [|? ?]]]; cbn; try contradiction.
  - intros ->. destruct (is_BaseException v); reflexivity.
  - intros _. destruct (is_Exception v); cbn.
    + destruct (bool_decide _), (bool_decide _); reflexivity.
    + destruct (is_BaseException v); reflexivity.
Qed.

(** After the first half the result queue is empty or holds what the
    child wrote. *)
Lemma launch_and_join_queue mode (s : Sys) :
  queue (snd (launch_and_join env func ttl mode s)) = []
  \/ exists lq, queue (snd (launch_and_join env func ttl mode s))
                = writes (child_run env func lq).
Proof.
  run_parent. destruct mode; cbn; split_cases; eauto.
Qed.

(** What [receive] hands on is the head of the result queue. *)
Lemma receive_head (s : Sys) x s3 :
  receive env func ttl s = (Ok x, s3) -> exists rest, queue s = Loaded x :: rest.
Proof.
  destruct s as [q p lq li tr]. destruct q as [|[y|c a] rest]; run_parent; cbn;
    destruct li; cbn; split_cases; destruct p as [|r|r|]; cbn; split_cases;
    intros Heq; try discriminate Heq; injection Heq as <- _; eauto.
Qed.

End ExpectedErrors.

Section ExpectedErrorsClaims.
Import Harness.
Variable env : Env.
Variable func : partial.
Variable ttl : Z.

(** X22.  Unless the work returns an instance of an [Exception] class,
    what [run_in_subprocess] returns or raises does not depend on
    [expected_errors]: the set only decides what is logged. *)
Theorem run_in_subprocess_expected_errors_only_log (mode : StartMethod)
    (ee1 ee2 : gset string) (s : Sys) :
  (forall K a, outcome func = Return (PyExc K a) -> derives_Exception K = false) ->
  fst (run_in_subprocess env func ttl mode ee1 s)
  = fst (run_in_subprocess env func ttl mode ee2 s).
Proof.
  intros Hret. unfold run_in_subprocess, collect, mbind, M_bind.
  assert (Hq := launch_and_join_queue env func ttl mode s).
  destruct (launch_and_join env func ttl mode s) as [[[]|e| |] s'] eqn:Hl; try reflexivity.
  cbn [snd] in Hq.
  destruct (receive env func ttl s') as [[x|e| |] s3] eqn:Hr; try reflexivity.
  apply receive_head in Hr. destruct Hr as (rest & Hx).
  apply interpret_fst_expected.
  destruct Hq as [Hq|(lq & Hq)]; [congruence|].
  rewrite Hx in Hq.
  destruct (child_run_writes env func lq) as [Hw|[(v & Ho & Hw)|(cls & a & Hw)]];
    rewrite Hw in Hq; try discriminate Hq; injection Hq as Hq _;
    symmetry in Hq; apply deliver_Loaded in Hq; subst x; [|exact I].
  destruct v; try reflexivity. cbn. eapply Hret, Ho.
Qed.

End ExpectedErrorsClaims.

Section Teardown.
Import Harness.
Variable env : Env.
Variable func : partial.
Variable ttl : Z.

(** [interpret] only adds to the trace. *)
Lemma interpret_appends ee x (s : Sys) :
  exists ext, trace (snd (interpret ee x s)) = trace s ++ ext.
Proof.
  unfold interpret, item, when, log, raise, mbind, M_bind, mret, M_ret, event.
  destruct x as [| | | |items| |]; cbn; try (exists []; now rewrite app_nil_r).
  destruct items as [|v [|tb more]]; cbn; try (exists []; now rewrite app_nil_r).
  - destruct (is_Exception v); cbn.
    + destruct (bool_decide _); cbn; exists []; now rewrite app_nil_r.
    + destruct (is_BaseException v); cbn; exists []; now rewrite app_nil_r.
  - destruct (is_Exception v); cbn.
    + destruct (bool_decide _); cbn; eauto. exists []; now rewrite app_nil_r.
    + destruct (is_BaseException v); cbn; eauto. exists []; now rewrite app_nil_r.
Qed.

(** X23.  In spawn mode, when no library call fails, the listener that
    was started before the child is stopped and taken off the exit hooks
    right after the bounded wait, before the parent looks at the child:
    whether the work returns, raises, dies or runs out of time. *)
Theorem run_in_subprocess_stops_listener (ee : gset string) (s : Sys) :
  (forall c, fails env c = None) ->
  exists rest,
    trace (snd (run_in_subprocess env func ttl spawn ee s))
    = trace s
      ++ [Lib manager_queue; Lib queue_listener; Lib listener_start; Lib atexit_register;
          Start; Join (Some ttl); Lib listener_stop; Lib atexit_unregister; IsAlive]
      ++ rest.
Proof.
  intros Hnone.
  unfold run_in_subprocess, launch_and_join, collect, receive, fresh, process_start,
    process_is_alive, process_terminate, process_join, queue_get, lib, log,
    assign_log_queue, assign_listener, read, when, try_except, raise, mbind, M_bind,
    mret, M_ret, event, set_proc.
  cbn -[interpret child_run]. rewrite !Hnone. cbn -[interpret child_run].
  repeat match goal with
         | |- context [exit_after (child_run env func true)] =>
             destruct (exit_after (child_run env func true));
             cbn -[interpret child_run]; rewrite ?Hnone; cbn -[interpret child_run]
         | |- context [(?a <=? ?b)%Z] =>
             destruct (a <=? b)%Z;
             cbn -[interpret child_run]; rewrite ?Hnone; cbn -[interpret child_run]
         | |- context [stubborn (child_run env func true)] =>
             destruct (stubborn (child_run env func true));
             cbn -[interpret child_run]; rewrite ?Hnone; cbn -[interpret child_run]
         | |- context [match writes (child_run env func true) with _ => _ end] =>
             destruct (writes (child_run env func true)) as [|[x|c a] l];
             cbn -[interpret child_run]; rewrite ?Hnone; cbn -[interpret child_run]
         | |- context [derives_Exception ?c] =>
             destruct (derives_Exception c);
             cbn -[interpret child_run]; rewrite ?Hnone; cbn -[interpret child_run]
         | |- context [interpret ee ?x ?S] =>
             destruct (interpret_appends ee x S) as (ext & ->)
         end;
    eexists; cbn [trace]; rewrite <- ?app_assoc; cbn; reflexivity.
Qed.

End Teardown.

(** ** More on the retry wrapper *)

Section RetryMore.
Import Retry RetryMore.
Context {W : Type}.
Variable func : M W PyVal.
Variables max_retries delay_seconds : Z.

Let body (attempt : Z) : M (St W) (option PyVal) :=
  try_except
    (v ← invoke func; mret (Some v))
    is_Exception
    (fun e =>
       if (attempt =? max_retries)%Z
       then raise e
       else sleep delay_seconds;; mret None).

Let orelse : M (St W) PyVal :=
  raise (PyExc Exception
           [PyStr "Unexpected state: Ran with retry but didn't hit a terminal state"]).

Let loop (a : Z) : M (St W) PyVal := for_in (range a (max_retries + 1)) body orelse.

Lemma sleeps_app l1 l2 : sleeps (l1 ++ l2) = sleeps l1 ++ sleeps l2.
Proof. induction l1 as [|[|d] l1 IH]; cbn; now rewrite ?IH. Qed.

Lemma for_in_cons {S X A} (x : X) (rest : list X) (b : X -> M S (option A))
    (o : M S A) (s : S) :
  for_in (x :: rest) b o s
  = match b x s with
    | (Ok (Some v), s') => (Ok v, s')
    | (Ok None, s') => for_in rest b o s'
    | (Exn e, s') => (Exn e, s')
    | (Blocked, s') => (Blocked, s')
    | (Died, s') => (Died, s')
    end.
Proof.
  cbn [for_in]. unfold mbind, M_bind.
  destruct (b x s) as [[[v|]|e| |] s']; reflexivity.
Qed.

(** One round of the loop. *)
Lemma body_eval (a : Z) (w : W) (tr : list Step) :
  body a {| work := w; steps := tr |}
  = match func w with
    | (Ok v, w') => (Ok (Some v), {| work := w'; steps := tr ++ [Invoke] |})
    | (Exn e, w') =>
        if is_Exception e then
          if (a =? max_retries)%Z then (Exn e, {| work := w'; steps := tr ++ [Invoke] |})
          else if (delay_seconds <? 0)%Z
               then (Exn (PyExc ValueError [PyStr "sleep length must be non-negative"]),
                     {| work := w'; steps := tr ++ [Invoke] |})
               else (Ok None,
                     {| work := w'; steps := (tr ++ [Invoke]) ++ [Sleep delay_seconds] |})
        else (Exn e, {| work := w'; steps := tr ++ [Invoke] |})
    | (Blocked, w') => (Blocked, {| work := w'; steps := tr ++ [Invoke] |})
    | (Died, w') => (Died, {| work := w'; steps := tr ++ [Invoke] |})
    end.
Proof.
  unfold body, try_except, mbind, M_bind, invoke, sleep, raise, mret, M_ret. cbn.
  destruct (func w) as [[v|e| |] w']; cbn; try reflexivity.
  destruct (is_Exception e); [|reflexivity].
  destruct (a =? max_retries)%Z; [reflexivity|]. cbn.
  destruct (delay_seconds <? 0)%Z; reflexivity.
Qed.

(** The loop from the attempt [a] on, with [k] attempts left: its steps,
    and where its result comes from. *)
Lemma loop_steps (k : nat) : forall (a : Z) (s : St W),
  (a + Z.of_nat k = max_retries + 1)%Z ->
  exists added,
    steps (snd (loop a s)) = steps s ++ added
    /\ (invocations added <= k)%nat
    /\ ((1 <= k)%nat -> (1 <= invocations added)%nat)
    /\ Forall (fun d => d = delay_seconds) (sleeps added)
    /\ (length (sleeps added) <= invocations added - 1)%nat
    /\ ((1 <= k)%nat -> (0 <= delay_seconds)%Z ->
        exists w0, func w0 = (fst (loop a s), work (snd (loop a s)))).
Proof.
  induction k as [|k IH]; intros a s Ha; unfold loop.
  - rewrite range_empty by lia. cbn. exists []. rewrite app_nil_r.
    repeat split; auto; try lia.
  - rewrite (range_cons a) by lia. rewrite for_in_cons.
    destruct s as [w tr]. rewrite body_eval. cbn [steps].
    destruct (func w) as [[v|e| |] w'] eqn:Hf.
    + exists [Invoke]. cbn. repeat split; auto; try lia. intros _ _. now exists w.
    + destruct (is_Exception e) eqn:He.
      * destruct (Z.eqb_spec a max_retries) as [Hlast|Hmore].
        { exists [Invoke]. cbn. repeat split; auto; try lia. intros _ _. now exists w. }
        destruct (Z.ltb_spec delay_seconds 0) as [Hneg|Hpos].
        { exists [Invoke]. cbn. repeat split; auto; try lia. }
        destruct (IH (a + 1)%Z
                    {| work := w'; steps := (tr ++ [Invoke]) ++ [Sleep delay_seconds] |})
          as (added & Hst & Hle & Hge & Hall & Hsl & Hprov); [lia|].
        unfold loop in Hst, Hprov. rewrite Hst. cbn [steps].
        exists ([Invoke; Sleep delay_seconds] ++ added).
        assert (Hk : (1 <= k)%nat) by lia. specialize (Hge Hk).
        split; [now rewrite <- !app_assoc|].
        cbn. repeat split; auto; try lia.
      * exists [Invoke]. cbn. repeat split; auto; try lia. intros _ _. now exists w.
    + exists [Invoke]. cbn. repeat split; auto; try lia. intros _ _. now exists w.
    + exists [Invoke]. cbn. repeat split; auto; try lia. intros _ _. now exists w.
Qed.

(** X24.  Whatever the work does, [run_with_retry] calls it at most
    [max_retries] times, every wait lasts [delay_seconds], and there is
    always an attempt after a wait: fewer waits than calls. *)
Theorem run_with_retry_bounded (s : St W) :
  exists added,
    steps (snd (run_with_retry func max_retries delay_seconds s)) = steps s ++ added
    /\ (invocations added <= Z.to_nat max_retries)%nat
    /\ Forall (fun d => d = delay_seconds) (sleeps added)
    /\ (length (sleeps added) <= invocations added - 1)%nat.
Proof.
  destruct (Z.le_gt_cases max_retries 0) as [Hle|Hgt].
  - exists []. rewrite run_with_retry_unfold, range_empty by lia. cbn.
    rewrite app_nil_r. repeat split; auto; lia.
  - destruct (loop_steps (Z.to_nat max_retries) 1 s ltac:(lia))
      as (added & Hst & Hle & _ & Hall & Hsl & _).
    exists added. rewrite run_with_retry_unfold. repeat split; auto.
Qed.

(** X25.  With [max_retries >= 1] and a wait length that is not negative,
    whatever [run_with_retry] returns or raises is what the last call of
    the work returned or raised, and the work is left as that call left
    it: the "Unexpected state" error after the loop is never reached. *)
Theorem run_with_retry_result_of_last_call (s : St W) :
  (1 <= max_retries)%Z -> (0 <= delay_seconds)%Z ->
  exists w0,
    func w0 = (fst (run_with_retry func max_retries delay_seconds s),
               work (snd (run_with_retry func max_retries delay_seconds s))).
Proof.
  intros Hmax Hd.
  destruct (loop_steps (Z.to_nat max_retries) 1 s ltac:(lia))
    as (_ & _ & _ & _ & _ & _ & Hprov).
  rewrite !run_with_retry_unfold. apply Hprov; [lia|exact Hd].
Qed.

(** X26.  An error of the work that is no [Exception] is not retried: at
    whatever attempt it is raised, it leaves [run_with_retry] at once, with
    no wait and no further call. *)
Theorem run_with_retry_not_caught (k : nat) (w w1 w2 : W) (tr : list Step) (e : PyVal) :
  (Z.of_nat k < max_retries)%Z ->
  (k = 0%nat \/ 0 <= delay_seconds)%Z ->
  failures func k w = Some w1 ->
  func w1 = (Exn e, w2) -> is_Exception e = false ->
  run_with_retry func max_retries delay_seconds {| work := w; steps := tr |}
  = (Exn e, {| work := w2; steps := tr ++ rounds delay_seconds k ++ [Invoke] |}).
Proof.
  intros Hk Hd Hf He Hexc.
  rewrite run_with_retry_unfold.
  rewrite (loop_failures func max_retries delay_seconds k 1 w tr w1) by (auto; lia).
  rewrite (range_cons (1 + Z.of_nat k)) by lia. cbn [for_in].
  unfold try_except, mbind, M_bind, invoke. cbn. rewrite He, Hexc.
  now rewrite <- app_assoc.
Qed.

(** X27.  With a negative [delay_seconds], the first failure that is not
    at the last attempt ends the call: [time.sleep] raises a [ValueError],
    which replaces the error of the work, and the work is not called
    again. *)
Theorem run_with_retry_negative_delay (w w' : W) (tr : list Step) (e : PyVal) :
  (delay_seconds < 0)%Z -> (1 < max_retries)%Z ->
  func w = (Exn e, w') -> is_Exception e = true ->
  run_with_retry func max_retries delay_seconds {| work := w; steps := tr |}
  = (Exn (PyExc ValueError [PyStr "sleep length must be non-negative"]),
     {| work := w'; steps := tr ++ [Invoke] |}).
Proof.
  intros Hd Hmax Hf He.
  rewrite run_with_retry_unfold, (range_cons 1) by lia.
  fold body orelse. rewrite for_in_cons, body_eval, Hf, He.
  destruct (Z.eqb_spec 1 max_retries); [lia|].
  destruct (Z.ltb_spec delay_seconds 0); [reflexivity|lia].
Qed.

End RetryMore.

(** ** The retry wrapper around the harness *)

Section RetryHarness.
Import Harness Retry.
Variable env : Env.
Variable func : partial.
Variable ttl : Z.
Variable mode : StartMethod.
Variable expected_errors : gset string.
Variables max_retries delay_seconds : Z.

(** X28.  [run_with_retry] around [run_in_subprocess] retries a timeout:
    for a work that is still running after [ttl] seconds at every attempt
    (and dies of the termination signal), the harness is run [max_retries]
    times, with a wait between two runs, and the [TimeoutError] of the
    last run is raised. *)
Theorem run_with_retry_retries_timeout (s : Sys) (tr : list Step) :
  fails env setrlimit = None ->
  ordinary_failures env ->
  outcome func = Hang \/ (ttl < Z.of_N (seconds func))%Z ->
  ignores_sigterm func = false ->
  (1 <= max_retries)%Z -> (0 <= delay_seconds)%Z ->
  let out := run_with_retry (run_in_subprocess env func ttl mode expected_errors)
               max_retries delay_seconds {| work := s; steps := tr |} in
  fst out = Exn (PyExc TimeoutError
              [PyStr ("Failed to " +:+ func_name func +:+ " after " +:+ pretty ttl
                      +:+ " seconds")])
  /\ steps (snd out)
     = tr ++ rounds delay_seconds (Z.to_nat max_retries - 1) ++ [Invoke].
Proof.
  intros Hrl Hord Hslow Hsig Hmax Hd out. subst out.
  set (timeout := PyExc TimeoutError
         [PyStr ("Failed to " +:+ func_name func +:+ " after " +:+ pretty ttl
                 +:+ " seconds")]).
  assert (Hrun : forall s0, exists s1,
            run_in_subprocess env func ttl mode expected_errors s0 = (Exn timeout, s1)).
  { intros s0.
    destruct (run_in_subprocess_slow env func ttl mode expected_errors s0 Hrl Hord)
      as (s1 & Hs1).
    { destruct Hslow as [Hh|Hlt]; [left; now apply Hang_stuck|now right]. }
    exists s1. rewrite Hs1, Hsig. reflexivity. }
  assert (Hfail : forall k s0, exists s1,
            failures (run_in_subprocess env func ttl mode expected_errors) k s0 = Some s1).
  { induction k as [|k IH]; intros s0; cbn; [eauto|].
    destruct (Hrun s0) as (s1 & ->). cbn. apply IH. }
  destruct (Hfail (Z.to_nat max_retries - 1)%nat s) as (s1 & Hs1).
  destruct (Hrun s1) as (s2 & Hs2).
  rewrite run_with_retry_unfold.
  rewrite (loop_failures _ max_retries delay_seconds (Z.to_nat max_retries - 1) 1 s tr s1)
    by (auto; lia).
  rewrite (range_cons (1 + Z.of_nat (Z.to_nat max_retries - 1))) by lia.
  rewrite for_in_cons, body_eval, Hs2. cbn [is_Exception timeout derives_Exception].
  destruct (Z.eqb_spec (1 + Z.of_nat (Z.to_nat max_retries - 1)) max_retries); [|lia].
  cbn. now rewrite <- app_assoc.
Qed.

End RetryHarness.

(** ** The further properties at sample inputs *)

Section MoreSamples.
Import Harness Samples MoreSamples.

Lemma halves_ordered : Valis.ordered Z.
Proof.
  split; cbn; intros;
    repeat match goal with
           | H : (_ =? _)%Z = true |- _ => apply Z.eqb_eq in H
           | H : (_ =? _)%Z = false |- _ => apply Z.eqb_neq in H
           | H : (_ <? _)%Z = true |- _ => apply Z.ltb_lt in H
           | H : (_ <? _)%Z = false |- _ => apply Z.ltb_ge in H
           end;
    subst; rewrite ?Z.eqb_eq, ?Z.ltb_lt, ?Z.ltb_ge; try reflexivity; lia.
Qed.

Lemma ordinary_env_ok : ordinary_failures env_ok.
Proof. intros c cls a H. discriminate H. Qed.

Lemma assert_registered_first_uid_witness :
  exists uid,
    Registry.assert_registered miner graph []
    = (Ok uid, [] ++ ["You are registered with address: " +:+ "5Gb"
                      +:+ " and uid: " +:+ pretty uid])
    /\ nth_error (Bt.hotkeys graph) uid = Some "5Gb"
    /\ forall j, (j < uid)%nat -> nth_error (Bt.hotkeys graph) j <> Some "5Gb".
Proof.
  apply (assert_registered_first_uid miner graph []).
  cbn. right. left. reflexivity.
Defined.

Lemma validate_hf_repo_id_accepts_witness :
  String.length accented_id = 5%nat
  /\ HfRepo.validate_hf_repo_id 4 accented_id tt
     = (Ok (String (ascii_of_nat 195) (String (ascii_of_nat 169) ""), "bc"), tt).
Proof.
  split; [reflexivity|].
  apply (proj2 (validate_hf_repo_id_accepts 4 accented_id tt
                  (String (ascii_of_nat 195) (String (ascii_of_nat 169) "")) "bc")).
  split; [reflexivity|]. split; [reflexivity|]. split; [reflexivity|].
  vm_compute. split; [reflexivity|discriminate].
Defined.

Lemma get_hf_url_of_validated_witness :
  HfRepo.get_hf_url
    {| HfRepo.id := {| HfRepo.namespace := "coldint"; HfRepo.name := "model-7b";
                       HfRepo.commit := "c0ffee" |} |}
  = "https://huggingface.co/" +:+ "coldint/model-7b" +:+ "/tree/" +:+ "c0ffee".
Proof.
  apply (get_hf_url_of_validated (W := unit) 41 "coldint/model-7b" tt
           "coldint" "model-7b" "c0ffee").
  reflexivity.
Defined.

Lemma get_top_valis_members_witness :
  NoDup [3%nat; 1%nat]
  /\ forall uid, In uid [3%nat; 1%nat] ->
       nth_error (Bt.validator_permit graph) uid = Some true
       /\ (uid < length (Bt.S graph))%nat.
Proof.
  apply (get_top_valis_members (W := unit) graph 2 tt [3%nat; 1%nat] tt).
  reflexivity.
Defined.

Lemma get_top_valis_descending_witness :
  exists su sv,
    nth_error (Bt.S graph) 3 = Some su /\ nth_error (Bt.S graph) 1 = Some sv
    /\ (Bt.f_ltb sv su = true \/ (Bt.f_eqb su sv = true /\ (1 < 3)%nat)).
Proof.
  apply (get_top_valis_descending (W := unit) graph 2 tt [3%nat; 1%nat] tt 0 1 3 1).
  - exact halves_ordered.
  - reflexivity.
  - lia.
  - reflexivity.
  - reflexivity.
Defined.

Lemma get_top_valis_count_witness :
  length [3%nat; 1%nat; 0%nat; 4%nat] = Nat.min (Z.to_nat 10) (length (Valis.validators graph))
  /\ ((Z.of_nat (length (Valis.validators graph)) <= 10)%Z ->
      Permutation [3%nat; 1%nat; 0%nat; 4%nat] (map snd (Valis.validators graph))).
Proof.
  apply (get_top_valis_count (W := unit) graph 10 tt [3%nat; 1%nat; 0%nat; 4%nat] tt).
  - lia.
  - reflexivity.
Defined.

Lemma get_top_valis_top_witness :
  exists sv,
    nth_error (Bt.S graph) 1 = Some sv
    /\ (Bt.f_ltb 20 sv = true \/ (Bt.f_eqb sv 20 = true /\ (0 < 1)%nat)).
Proof.
  apply (get_top_valis_top (W := unit) graph 2 tt [3%nat; 1%nat] tt 20 0 1).
  - exact halves_ordered.
  - reflexivity.
  - cbn. left. reflexivity.
  - cbn. intros [H|[H|[]]]; discriminate H.
  - cbn. right. left. reflexivity.
Defined.

Lemma get_top_valis_negative_witness :
  Valis.get_top_valis graph (-1) tt
  = Valis.get_top_valis graph (Z.max 0 (Z.of_nat (length (Valis.validators graph)) + -1)) tt.
Proof.
  apply (get_top_valis_negative (W := unit) graph (-1) tt). lia.
Defined.

Lemma list_top_miners_member_witness :
  4%nat ∈ ({[1%nat; 4%nat]} : gset nat)
  <-> exists vs v row wt,
        Valis.get_top_valis graph 10 ([] : list string) = (Ok vs, [])
        /\ In v vs
        /\ nth_error (Bt.weights graph) v = Some row
        /\ nth_error row 4 = Some wt
        /\ Bt.f_ltb Bt.f_zero wt = true
        /\ Bt.f_ltb (Bt.f_mul one_half (Valis.positive_total row)) wt = true.
Proof.
  apply (list_top_miners_member one_half graph []
           ["Vali UID 4 not in metagraph.weights"] {[1%nat; 4%nat]} 4).
  vm_compute. reflexivity.
Defined.

Lemma list_top_miners_warnings_witness :
  exists vs tm,
    Valis.get_top_valis graph 10 ([] : list string) = (Ok vs, [])
    /\ Valis.list_top_miners one_half graph []
       = (Ok tm,
          [] ++ map Valis.no_row_warning
                  (filter (fun v => (length (Bt.weights graph) <= v)%nat) vs)).
Proof.
  apply (list_top_miners_warnings one_half graph []). cbn. lia.
Defined.

Lemma _wrapped_func_always_envelope_witness :
  fst (_wrapped_func env_ok (work (Raise SystemExit [PyInt 3]) 1) true child0) = Ok tt
  /\ length (c_queue (snd (_wrapped_func env_ok (work (Raise SystemExit [PyInt 3]) 1)
                             true child0))) = 1%nat.
Proof.
  apply (_wrapped_func_always_envelope env_ok (work (Raise SystemExit [PyInt 3]) 1) true).
  - reflexivity.
  - discriminate.
  - discriminate.
Defined.

Lemma _wrapped_func_logging_not_fatal_witness :
  fails env_no_handler install_queue_handler = Some (ValueError, [PyStr "Unknown level: 20"])
  /\ exit_after (child_run env_no_handler (work (Return (PyInt 7)) 2) true)
     = exit_after (child_run env_no_handler (work (Return (PyInt 7)) 2) false)
  /\ writes (child_run env_no_handler (work (Return (PyInt 7)) 2) true)
     = writes (child_run env_no_handler (work (Return (PyInt 7)) 2) false).
Proof.
  split; [reflexivity|].
  apply (_wrapped_func_logging_not_fatal env_no_handler (work (Return (PyInt 7)) 2)).
  intros cls a H. injection H as <- _. reflexivity.
Defined.


Lemma run_in_subprocess_dead_child_witness :
  fst (run_in_subprocess env_ok (work Exit 2) 10 spawn ∅ sys0)
  = Exn (PyExc Exception
      [PyStr "Failed to get result from subprocess work(*args=(1, 'a'),**kwargs={'k': None}): "]).
Proof.
  refine (run_in_subprocess_dead_child env_ok (work Exit 2) 10 spawn ∅ sys0 _ _ _ _).
  - reflexivity.
  - exact ordinary_env_ok.
  - reflexivity.
  - cbn. lia.
Defined.

Lemma run_in_subprocess_slow_work_witness :
  fst (run_in_subprocess env_small_pipe (stubborn_work (Return (PyStr long_text)) 11)
         10 fork ∅ sys0)
  = Blocked.
Proof.
  refine (run_in_subprocess_slow_work env_small_pipe
            (stubborn_work (Return (PyStr long_text)) 11) 10 fork ∅ sys0 _ _ _).
  - reflexivity.
  - intros c cls a H. discriminate H.
  - right. cbn. lia.
Defined.

Lemma run_in_subprocess_full_pipe_witness :
  fst (run_in_subprocess env_small_pipe (work (Return (PyStr long_text)) 1) 10 fork ∅ sys0)
  = Exn (PyExc TimeoutError [PyStr "Failed to work after 10 seconds"]).
Proof.
  refine (run_in_subprocess_full_pipe env_small_pipe (work (Return (PyStr long_text)) 1)
            10 fork ∅ sys0 (PyTuple [PyStr long_text]) _ _ _ _).
  - reflexivity.
  - intros c cls a H. discriminate H.
  - reflexivity.
  - vm_compute. reflexivity.
Defined.

Lemma run_in_subprocess_unpicklable_witness :
  fst (run_in_subprocess env_no_pickle (work (Return a_lambda) 1) 10 fork ∅ sys0)
  = Exn (PyExc Exception
      [PyStr "Failed to get result from subprocess work(*args=(1, 'a'),**kwargs={'k': None}): "]).
Proof.
  refine (run_in_subprocess_unpicklable env_no_pickle (work (Return a_lambda) 1)
            10 fork ∅ sys0 (PyTuple [a_lambda]) _ _ _ _ _).
  - reflexivity.
  - intros c cls a H. discriminate H.
  - reflexivity.
  - reflexivity.
  - cbn. lia.
Defined.

Lemma run_in_subprocess_unloadable_witness :
  fst (run_in_subprocess env_unloadable (work (Raise QuotaError [PyStr "over quota"]) 2)
         10 spawn {["QuotaError"]} sys0)
  = Exn (PyExc Exception
      [PyStr ("Failed to get result from subprocess work(*args=(1, 'a'),**kwargs={'k': None}): "
              +:+ "QuotaError.__init__() missing 1 required positional argument: 'limit'")]).
Proof.
  refine (run_in_subprocess_unloadable env_unloadable
            (work (Raise QuotaError [PyStr "over quota"]) 2) 10 spawn {["QuotaError"]} sys0
            (PyTuple [PyExc QuotaError [PyStr "over quota"];
                      PyStr (render (PyExc QuotaError [PyStr "over quota"]))])
            (N.of_nat (String.length
               (py_repr (PyTuple [PyExc QuotaError [PyStr "over quota"];
                                  PyStr (render (PyExc QuotaError [PyStr "over quota"]))]))))
            TypeError
            [PyStr "QuotaError.__init__() missing 1 required positional argument: 'limit'"]
            _ _ _ _ _ _ _ _).
  - reflexivity.
  - intros c cls a H. discriminate H.
  - reflexivity.
  - reflexivity.
  - vm_compute. discriminate.
  - reflexivity.
  - reflexivity.
  - cbn. lia.
Defined.

Lemma collect_returns_first_item_witness :
  fst (collect env_ok (work Exit 0) 10 ∅ (exited [PyTuple [PyInt 1; PyStr "x"]]))
  = Ok (PyInt 1).
Proof.
  refine (collect_returns_first_item env_ok (work Exit 0) 10 ∅
            (exited [PyTuple [PyInt 1; PyStr "x"]]) (PyInt 1) [PyStr "x"] [] _ _ _);
    reflexivity.
Defined.

Lemma collect_one_item_exception_witness :
  fst (collect env_ok (work Exit 0) 10 ∅ (exited [PyTuple [boom]]))
  = Exn (PyExc IndexError [PyStr "tuple index out of range"])
  /\ errors_logged (trace (snd (collect env_ok (work Exit 0) 10 ∅
                                  (exited [PyTuple [boom]]))))
     = errors_logged (trace (exited [PyTuple [boom]])).
Proof.
  refine (collect_one_item_exception env_ok (work Exit 0) 10 ∅ (exited [PyTuple [boom]])
            ValueError [PyStr "boom"] [] _ _ _ _).
  - reflexivity.
  - reflexivity.
  - reflexivity.
  - apply not_elem_of_empty.
Defined.

Lemma run_in_subprocess_expected_errors_only_log_witness :
  fst (run_in_subprocess env_ok (work (Raise ValueError [PyStr "boom"]) 2) 10 fork
         ∅ sys0)
  = fst (run_in_subprocess env_ok (work (Raise ValueError [PyStr "boom"]) 2) 10 fork
           {["ValueError"]} sys0).
Proof.
  apply (run_in_subprocess_expected_errors_only_log env_ok
           (work (Raise ValueError [PyStr "boom"]) 2) 10 fork ∅ {["ValueError"]} sys0).
  intros K a H. discriminate H.
Defined.

Lemma run_in_subprocess_stops_listener_witness :
  exists rest,
    trace (snd (run_in_subprocess env_ok (work Hang 0) 10 spawn ∅ sys0))
    = trace sys0
      ++ [Lib manager_queue; Lib queue_listener; Lib listener_start; Lib atexit_register;
          Start; Join (Some 10); Lib listener_stop; Lib atexit_unregister; IsAlive]
      ++ rest.
Proof.
  apply (run_in_subprocess_stops_listener env_ok (work Hang 0) 10 ∅ sys0).
  intros c. reflexivity.
Defined.

Lemma run_with_retry_result_of_last_call_witness :
  exists w0,
    flaky w0 = (fst (Retry.run_with_retry flaky 2 0 (Retry.st0 0%nat)),
                Retry.work (snd (Retry.run_with_retry flaky 2 0 (Retry.st0 0%nat)))).
Proof.
  apply (run_with_retry_result_of_last_call flaky 2 0 (Retry.st0 0%nat)); lia.
Defined.

Lemma run_with_retry_not_caught_witness :
  Retry.run_with_retry interrupted 5 0 {| Retry.work := 0%nat; Retry.steps := [] |}
  = (Exn (PyExc KeyboardInterrupt []),
     {| Retry.work := 2%nat;
        Retry.steps := [] ++ Retry.rounds 0 1 ++ [Retry.Invoke] |}).
Proof.
  apply (run_with_retry_not_caught interrupted 5 0 1 0%nat 1%nat 2%nat []
           (PyExc KeyboardInterrupt [])).
  - lia.
  - right. lia.
  - reflexivity.
  - reflexivity.
  - reflexivity.
Defined.

Lemma run_with_retry_negative_delay_witness :
  Retry.run_with_retry flaky 3 (-1) {| Retry.work := 0%nat; Retry.steps := [] |}
  = (Exn (PyExc ValueError [PyStr "sleep length must be non-negative"]),
     {| Retry.work := 1%nat; Retry.steps := [] ++ [Retry.Invoke] |}).
Proof.
  apply (run_with_retry_negative_delay flaky 3 (-1) 0%nat 1%nat []
           (PyExc ValueError [PyInt 0])).
  - lia.
  - lia.
  - reflexivity.
  - reflexivity.
Defined.

Lemma run_with_retry_retries_timeout_witness :
  fst (Retry.run_with_retry
         (run_in_subprocess env_ok (work (Return (PyInt 7)) 11) 10 fork ∅) 3 1
         {| Retry.work := sys0; Retry.steps := [] |})
  = Exn (PyExc TimeoutError [PyStr "Failed to work after 10 seconds"]).
Proof.
  refine (proj1 (run_with_retry_retries_timeout env_ok (work (Return (PyInt 7)) 11) 10
                   fork ∅ 3 1 sys0 [] _ _ _ _ _ _)).
  - reflexivity.
  - exact ordinary_env_ok.
  - right. cbn. lia.
  - reflexivity.
  - lia.
  - lia.
Defined.

End MoreSamples.
